(** * DocOutlinerr: the heuristic PDF outline extractor

    A shallow embedding of the client-side extraction pipeline
    ([getLinesFromPage], [getFontStatistics], [classifyHeadings],
    [extractOutlineFromPdf], [handleExtract]) and the properties its
    specification states about it.

    Conventions of the embedding.
    - A JavaScript [number] that holds a coordinate or a glyph height is
      the rational ([Q]) the double denotes.  Comparisons, [Math.round] and
      the sign of a difference are exact on doubles; the one difference
      whose size matters, in the title block, is rounded as IEEE 754
      rounds it.  Integer-valued numbers (results of [Math.round], property
      keys, text lengths, page numbers, array indices) are in [Z].  The one
      non-finite value the code can produce, [Math.max()] of no arguments,
      is [NegInfinity].
    - A JavaScript string is a [string] whose characters are the code units
      0..255 (Latin-1 text).
    - [Array.prototype.sort] is stable (ECMAScript 2019): it is an insertion
      sort driven by "the comparator is positive".
    - An object used as a map from numbers to values is an association list
      in property creation order; enumeration ([for..in], [Object.entries])
      lists the array-index keys in ascending order first and the other keys
      in creation order after them.
    - [throw] is the [Throw] constructor of [result]. *)

From Stdlib Require Import List ZArith QArith Qround Qabs String Ascii Bool Lia.
From Stdlib Require Import Sorting.Sorted Sorting.Permutation.
From Stdlib Require Import DecimalString.
Import ListNotations.

Local Open Scope string_scope.
Local Open Scope list_scope.
Local Open Scope Z_scope.

Set Implicit Arguments.

(* ================================================================== *)
(** * JavaScript primitives *)
(* ================================================================== *)

Module Js.

(** ** Numbers *)

(** [Math.round]: the nearest integer, halves towards plus infinity. *)
Definition Math_round (x : Q) : Z := Qfloor (x + (1 # 2)).

(** A number that may be [-Infinity]. *)
Inductive number : Type :=
| Finite (q : Q)
| NegInfinity.

(** [Math.max(...xs)]: [-Infinity] for no argument. *)
Fixpoint Math_max (xs : list Q) : number :=
  match xs with
  | [] => NegInfinity
  | x :: rest =>
      match Math_max rest with
      | NegInfinity => Finite x
      | Finite m => if Qle_bool m x then Finite x else Finite m
      end
  end.

(** [a < b] on rationals, as a boolean. *)
Definition Qltb (a b : Q) : bool := negb (Qle_bool b a).

(** The double nearest to the exact value [d >= 0] is below 1.  The
    largest double below 1 is 1 - 2^-53; a value from the midpoint
    1 - 2^-54 on rounds to 1 (the midpoint itself by the tie to the even
    significand, that of 1), a value below the midpoint to a double
    below 1. *)
Definition roundsBelowOne (d : Q) : bool :=
  Qltb d (1 - (1 # 18014398509481984)).

(** [Math.abs(h - m) < 1] on doubles: the difference is rounded to the
    nearest double, its absolute value is exact; the difference with
    [-Infinity] is [Infinity], which is not below 1. *)
Definition abs_diff_lt_1 (h : Q) (m : number) : bool :=
  match m with
  | Finite m => roundsBelowOne (Qabs (h - m))
  | NegInfinity => false
  end.

(** ** Arrays *)

Section Arrays.
Context {A : Type}.

(** [gtb a b] is "the comparator applied to [a] and [b] is positive". *)
Variable gtb : A -> A -> bool.

Fixpoint insert (a : A) (l : list A) : list A :=
  match l with
  | [] => [a]
  | b :: l' => if gtb a b then b :: insert a l' else a :: b :: l'
  end.

(** [l.sort(cmp)], stable. *)
Definition sort (l : list A) : list A := fold_right insert [] l.

(** [a] may stand before [b]: the comparator is not positive. *)
Definition before (a b : A) : Prop := gtb a b = false.
End Arrays.

(** [xs.indexOf(x)] on integer-valued numbers: first index, or -1. *)
Fixpoint indexOf (xs : list Z) (x : Z) : Z :=
  match xs with
  | [] => -1
  | y :: rest =>
      if y =? x then 0
      else let i := indexOf rest x in if i =? -1 then -1 else i + 1
  end.

(** [xs.findIndex(p)]: first index whose element satisfies [p], or -1. *)
Fixpoint findIndex {A : Type} (p : A -> bool) (xs : list A) : Z :=
  match xs with
  | [] => -1
  | y :: rest =>
      if p y then 0
      else let i := findIndex p rest in if i =? -1 then -1 else i + 1
  end.

(** [xs.filter((x, index) => p x index)]. *)
Fixpoint filteri_from {A : Type} (i : Z) (p : A -> Z -> bool) (xs : list A)
  : list A :=
  match xs with
  | [] => []
  | x :: rest =>
      if p x i then x :: filteri_from (i + 1) p rest
      else filteri_from (i + 1) p rest
  end.

Definition filteri {A : Type} (p : A -> Z -> bool) (xs : list A) : list A :=
  filteri_from 0 p xs.

(** ** Strings *)

(** White space and line terminators among the code units 0..255:
    TAB, LF, VT, FF, CR, SP, NBSP. *)
Definition isWhiteSpace (c : ascii) : bool :=
  let n := nat_of_ascii c in
  ((9 <=? n) && (n <=? 13) || (n =? 32) || (n =? 160))%nat.

(** [\d]. *)
Definition isDigit (c : ascii) : bool :=
  let n := nat_of_ascii c in ((48 <=? n) && (n <=? 57))%nat.

Fixpoint trimStart (s : string) : string :=
  match s with
  | EmptyString => EmptyString
  | String c s' => if isWhiteSpace c then trimStart s' else s
  end.

Fixpoint trimEnd (s : string) : string :=
  match s with
  | EmptyString => EmptyString
  | String c s' =>
      match trimEnd s' with
      | EmptyString => if isWhiteSpace c then EmptyString else String c EmptyString
      | r => String c r
      end
  end.

(** [s.trim()]. *)
Definition trim (s : string) : string := trimEnd (trimStart s).

(** [s.replace(/\s+/g, ' ')]; [inRun] says the previous character was
    white space, already replaced. *)
Fixpoint collapse_from (inRun : bool) (s : string) : string :=
  match s with
  | EmptyString => EmptyString
  | String c s' =>
      if isWhiteSpace c then
        if inRun then collapse_from true s'
        else String " " (collapse_from true s')
      else String c (collapse_from false s')
  end.

Definition collapse (s : string) : string := collapse_from false s.

(** [/^\s*$/.test(s)]. *)
Fixpoint allWhiteSpace (s : string) : bool :=
  match s with
  | EmptyString => true
  | String c s' => isWhiteSpace c && allWhiteSpace s'
  end.

(** [xs.join(sep)]. *)
Fixpoint join (sep : string) (xs : list string) : string :=
  match xs with
  | [] => EmptyString
  | [s] => s
  | s :: rest => (s ++ sep ++ join sep rest)%string
  end.

(** [c.toLowerCase()] on a Latin-1 code unit: A-Z and the capital
    letters U+00C0..U+00DE (the multiplication sign U+00D7 excepted). *)
Definition lowerChar (c : ascii) : ascii :=
  let n := nat_of_ascii c in
  if ((65 <=? n) && (n <=? 90)
      || (192 <=? n) && (n <=? 222) && negb (n =? 215))%nat
  then ascii_of_nat (n + 32) else c.

Fixpoint toLowerCase (s : string) : string :=
  match s with
  | EmptyString => EmptyString
  | String c s' => String (lowerChar c) (toLowerCase s')
  end.

Fixpoint allDigits (s : string) : bool :=
  match s with
  | EmptyString => true
  | String c s' => isDigit c && allDigits s'
  end.

(** [/^\d+$/.test(s)]. *)
Definition test_digits (s : string) : bool :=
  match s with
  | EmptyString => false
  | _ => allDigits s
  end.

(** [s.length]. *)
Definition length (s : string) : Z := Z.of_nat (String.length s).

(** The decimal literal of a non-negative integer, as a template
    string interpolates it. *)
Definition toString (n : Z) : string :=
  NilEmpty.string_of_uint (N.to_uint (Z.to_N n)).

(** ** Objects keyed by integer-valued numbers *)

Section Objects.
Context {V : Type}.

(** Own properties, in creation order. *)
Definition object : Type := list (Z * V).

Fixpoint get (o : object) (k : Z) : option V :=
  match o with
  | [] => None
  | (k', v) :: o' => if k' =? k then Some v else get o' k
  end.

(** [o[k] = v]: an existing property keeps its place, a new one is
    created last. *)
Fixpoint set (o : object) (k : Z) (v : V) : object :=
  match o with
  | [] => [(k, v)]
  | (k', v') :: o' =>
      if k' =? k then (k', v) :: o' else (k', v') :: set o' k v
  end.

(** A key is an array index when it is an integer in [0, 2^32 - 2]. *)
Definition isArrayIndex (k : Z) : bool :=
  (0 <=? k) && (k <? 4294967295).

(** [Object.entries(o)], and the order of [for (const k in o)]. *)
Definition entries (o : object) : list (Z * V) :=
  sort (fun a b => fst b <? fst a)
       (filter (fun e => isArrayIndex (fst e)) o)
  ++ filter (fun e => negb (isArrayIndex (fst e))) o.
End Objects.

Arguments object : clear implicits.

End Js.

(* ================================================================== *)
(** * Exceptions *)
(* ================================================================== *)

Inductive exn : Type :=
| Error (message : string)
| TypeError (message : string).

Definition message (e : exn) : string :=
  match e with Error m | TypeError m => m end.

Inductive result (A : Type) : Type :=
| Ok (a : A)
| Throw (e : exn).

Arguments Ok {A} a.
Arguments Throw {A} e.

Definition bind {A B : Type} (r : result A) (k : A -> result B) : result B :=
  match r with
  | Ok a => k a
  | Throw e => Throw e
  end.

Notation "x <- r ;; k" := (bind r (fun x => k))
  (at level 61, r at next level, right associativity).

Fixpoint mapM {A B : Type} (f : A -> result B) (l : list A) : result (list B) :=
  match l with
  | [] => Ok []
  | a :: l' => b <- f a ;; bs <- mapM f l' ;; Ok (b :: bs)
  end.

(* ================================================================== *)
(** * Data model *)
(* ================================================================== *)

(** [TextItem]; [transform_4] and [transform_5] are [transform[4]] and
    [transform[5]], the horizontal and vertical origin; [item_height]
    and [item_fontName] are its [height] and [fontName]. *)
Record TextItem : Type := mkTextItem {
  str : string;
  transform_4 : Q;
  transform_5 : Q;
  item_height : Q;
  item_fontName : string
}.

Record Line : Type := mkLine {
  text : string;
  x : Q;
  y : Q;
  height : Q;
  fontName : string;
  page : Z
}.

(** [Heading]; [h_text] and [h_page] are its [text] and [page], and
    [level] is one of the strings 'H1' .. 'H6'. *)
Record Heading : Type := mkHeading {
  h_text : string;
  level : string;
  h_page : Z
}.

Record Outline : Type := mkOutline {
  title : string;
  outline : list Heading
}.

(* ================================================================== *)
(** * Line Assembler: [getLinesFromPage] *)
(* ================================================================== *)

(** The body of [items.forEach(item => ...)]. *)
Definition groupItem (itemGroups : Js.object (list TextItem)) (item : TextItem)
  : Js.object (list TextItem) :=
  let y := Js.Math_round (transform_5 item) in
  let itemGroups :=
    match Js.get itemGroups y with
    | None => Js.set itemGroups y []
    | Some _ => itemGroups
    end in
  match Js.get itemGroups y with
  | Some group => Js.set itemGroups y (group ++ [item])
  | None => itemGroups
  end.

Definition groupItems (items : list TextItem) : Js.object (list TextItem) :=
  fold_left groupItem items [].

(** The comparator [(a, b) => a.transform[4] - b.transform[4]] is positive. *)
Definition byX (a b : TextItem) : bool := Js.Qltb (transform_4 b) (transform_4 a).

(** The comparator [(a, b) => b.y - a.y] is positive. *)
Definition byYDesc (a b : Line) : bool := Js.Qltb (y a) (y b).

(** The body of [for (const y in itemGroups)]; reading a property of
    [group[0]] throws when the group is empty. *)
Definition lineOfGroup (pageNumber : Z) (entry : Z * list TextItem) : result Line :=
  let (y, items) := entry in
  let group := Js.sort byX items in
  let text := Js.join " " (map str group) in
  match group with
  | [] => Throw (TypeError "Cannot read properties of undefined")
  | firstItem :: _ =>
      Ok {| text := Js.collapse (Js.trim text);
            x := transform_4 firstItem;
            y := inject_Z y;
            height := item_height firstItem;
            fontName := item_fontName firstItem;
            page := pageNumber |}
  end.

Definition getLinesFromPage (pageNumber : Z) (items : list TextItem)
  : result (list Line) :=
  match items with
  | [] => Ok []
  | _ =>
      lines <- mapM (lineOfGroup pageNumber) (Js.entries (groupItems items)) ;;
      Ok (Js.sort byYDesc lines)
  end.

(* ================================================================== *)
(** * Font Profiler: [getFontStatistics] *)
(* ================================================================== *)

(** [line.height && line.text.length > 2]: a height of 0 is falsy. *)
Definition qualifies (line : Line) : bool :=
  negb (Qeq_bool (height line) 0) && (2 <? Js.length (text line)).

(** The body of [lines.forEach(line => ...)]; [fontStats[height] || 0]
    reads a missing bucket as 0. *)
Definition addLine (fontStats : Js.object Z) (line : Line) : Js.object Z :=
  if qualifies line then
    let height := Js.Math_round (height line) in
    let old := match Js.get fontStats height with
               | Some count => count
               | None => 0
               end in
    Js.set fontStats height (old + Js.length (text line))
  else fontStats.

Definition fontStatsOf (lines : list Line) : Js.object Z :=
  fold_left addLine lines [].

(** The comparator [([, countA], [, countB]) => countB - countA] is positive. *)
Definition byCountDesc (a b : Z * Z) : bool := snd a <? snd b.

(** The comparator [(a, b) => b - a] is positive. *)
Definition bySizeDesc (a b : Z) : bool := a <? b.

Definition sortedFontsOf (lines : list Line) : list Z :=
  map fst (Js.sort byCountDesc (Js.entries (fontStatsOf lines))).

Record FontStatistics : Type := mkFontStatistics {
  headingSizes : list Z;
  bodySize : Z
}.

(** [sortedFonts[0] || 12]: an empty array and a first element 0 both
    give 12. *)
Definition getFontStatistics (lines : list Line) : FontStatistics :=
  let sortedFonts := sortedFontsOf lines in
  let bodySize :=
    match sortedFonts with
    | [] => 12
    | size :: _ => if size =? 0 then 12 else size
    end in
  let headingSizes :=
    Js.sort bySizeDesc (filter (fun size => bodySize <? size) sortedFonts) in
  {| headingSizes := headingSizes; bodySize := bodySize |}.

(* ================================================================== *)
(** * Heading Classifier and Outline Assembler: [classifyHeadings] *)
(* ================================================================== *)

(** [headingSizes] is the list [getFontStatistics] returns: the sizes are
    keys of [fontStats], integers.  [null] is [None]. *)
Definition getHeadingLevel (headingSizes : list Z) (height : Q) : option string :=
  let roundedHeight := Js.Math_round height in
  let index := Js.indexOf headingSizes roundedHeight in
  if index =? -1 then None
  else if index <? 6 then Some ("H" ++ Js.toString (index + 1))%string
  else Some "H6".

(** The body of [lines.forEach(line => ...)]: the heading pushed for
    [line], if any.  A level, when there is one, is a non-empty string
    and so truthy. *)
Definition classifyLine (titleText : string) (headingSizes : list Z) (line : Line)
  : option Heading :=
  let level := getHeadingLevel headingSizes (height line) in
  let isNumeric := Js.test_digits (text line) in
  let isTitle :=
    String.eqb (Js.toLowerCase (text line)) (Js.toLowerCase titleText) in
  match level with
  | Some level =>
      if (3 <? Js.length (text line)) && negb isNumeric && negb isTitle
      then Some {| h_text := text line; level := level; h_page := page line |}
      else None
  | None => None
  end.

(** The array [outline] after the [forEach]. *)
Fixpoint candidates (titleText : string) (headingSizes : list Z) (lines : list Line)
  : list Heading :=
  match lines with
  | [] => []
  | line :: rest =>
      match classifyLine titleText headingSizes line with
      | Some heading => heading :: candidates titleText headingSizes rest
      | None => candidates titleText headingSizes rest
      end
  end.

(** [h.text === heading.text && h.page === heading.page]. *)
Definition sameEntry (heading h : Heading) : bool :=
  String.eqb (h_text h) (h_text heading) && (h_page h =? h_page heading).

(** [outline.filter((heading, index, self) =>
       index === self.findIndex(h => ...))]. *)
Definition removeDuplicates (outline : list Heading) : list Heading :=
  Js.filteri
    (fun heading index => index =? Js.findIndex (sameEntry heading) outline)
    outline.

Definition classifyHeadings (lines : list Line) (titleText : string)
  (headingSizes : list Z) : list Heading :=
  removeDuplicates (candidates titleText headingSizes lines).

(* ================================================================== *)
(** * [extractOutlineFromPdf] and [handleExtract] *)
(* ================================================================== *)

(** A parsed document: the text items of page 1, page 2, ... *)
Definition Pdf : Type := list (list TextItem).

Definition EmptyExtraction : exn :=
  Error "Could not extract any text from this document. It may be an image-only PDF.".

Definition NoStructureFound : exn :=
  Error "Could not extract a title or any headings. The document might be empty, an image, or corrupted.".

(** [for (let i = 1; i <= pdf.numPages; i++)
       allLines = allLines.concat(await getLinesFromPage(page i))],
    from page [i] on. *)
Fixpoint collectLines (i : Z) (pages : list (list TextItem)) (allLines : list Line)
  : result (list Line) :=
  match pages with
  | [] => Ok allLines
  | items :: rest =>
      pageLines <- getLinesFromPage i items ;;
      collectLines (i + 1) rest (allLines ++ pageLines)
  end.

(** The title block of [extractOutlineFromPdf]. *)
Definition titleOf (allLines : list Line) : string :=
  let firstPageLines :=
    Js.sort byYDesc (filter (fun l => page l <=? 2) allLines) in
  let maxFontSize := Js.Math_max (map height firstPageLines) in
  let titleLines :=
    map text
      (Js.sort byYDesc
         (filter (fun line => Js.abs_diff_lt_1 (height line) maxFontSize)
                 firstPageLines)) in
  Js.join " " titleLines.

Definition extractOutlineFromPdf (pdf : Pdf) : result Outline :=
  allLines <- collectLines 1 pdf [] ;;
  match allLines with
  | [] => Throw EmptyExtraction
  | _ =>
      let title := titleOf allLines in
      let headingSizes := headingSizes (getFontStatistics allLines) in
      let outline := classifyHeadings allLines title headingSizes in
      Ok {| title := title; outline := outline |}
  end.

(** What [handleExtract] leaves in the component state, run from the
    state of the first render (no outline, no error). *)
Record UiState : Type := mkUiState {
  ui_outline : option Outline;
  ui_error : option string
}.

(** The [try] block: a result with an empty title (falsy) and no heading
    is thrown away. *)
Definition tryExtract (file : Pdf) : result Outline :=
  result <- extractOutlineFromPdf file ;;
  match title result, outline result with
  | EmptyString, [] => Throw NoStructureFound
  | _, _ => Ok result
  end.

(** [e.message || 'An unexpected error occurred during processing.'] *)
Definition errorMessage (e : exn) : string :=
  match message e with
  | EmptyString => "An unexpected error occurred during processing."
  | m => m
  end.

Definition handleExtract (file : option Pdf) : UiState :=
  match file with
  | None => {| ui_outline := None; ui_error := Some "Please select a file first." |}
  | Some file =>
      match tryExtract file with
      | Ok result => {| ui_outline := Some result; ui_error := None |}
      | Throw e => {| ui_outline := None; ui_error := Some (errorMessage e) |}
      end
  end.

(* ================================================================== *)
(** * Doubles *)
(* ================================================================== *)

From Stdlib Require Floats.

Module Doubles.
Import PrimFloat.

(** The rational a finite double denotes. *)
Definition exactValue (f : float) : Q :=
  match FloatOps.Prim2SF f with
  | SpecFloat.S754_finite s m e =>
      let n := if s then Z.neg m else Z.pos m in
      if 0 <=? e then inject_Z (n * 2 ^ e)
      else Qmake n (Z.to_pos (2 ^ (- e)))
  | _ => 0%Q
  end.

(** [Math.abs(h - m) < 1] in binary64 arithmetic. *)
Definition abs_diff_lt_1 (h m : float) : bool :=
  ltb (abs (sub h m)) 1%float.

(** Pairs of doubles whose difference is at, next to and far from the
    places where rounding decides the comparison with 1. *)
Definition boundary : list (float * float) :=
  [ (0x1p-60, 1); (0x1p-53, 1); (0x1p-54, 1); (0x1p-55, 1);
    (0x1.8p-54, 1); (0x1.0000000000001p-54, 1); (0x1.fffffffffffffp-54, 1);
    (1, 0x1p-60); (1, 0x1p-53); (1, 0x1p-54); (0x1p-1074, 1); (1, 0x1p-1074);
    (0x1.fffffffffffffp-1, 0); (0x1.fffffffffffffp-1, 0x1p-1074);
    (22, 21.5); (22, 21); (22, 23); (14, 22); (22, 22);
    (0x1.5000000000001p+4, 22); (0x1.4ffffffffffffp+4, 22);
    (0x1.7ffffffffffffp+2, 5); (0x1.8000000000001p+2, 5);
    (0x1.999999999999ap-4, 0x1.199999999999ap+0);
    (0x1.999999999999ap-4, 0x1.1999999999999p+0);
    (-0.5, 0.5); (-0x1.ffffffffffffep-2, 0.5); (0.5, -0.5);
    (3, 0x1.0000000000002p+1); (3, 0x1.0000000000001p+1);
    (100.25, 101.25); (100.25, 0x1.94fffffffffffp+6);
    (2, 0x1.0000000000001p+0); (0x1p+60, 0x1p+60);
    (0x1.fffffffffffffp+1023, -0x1.fffffffffffffp+1023) ]%float.

End Doubles.

(* ================================================================== *)
(** * The component [Home]: its state and its handlers *)
(* ================================================================== *)

Module Home.

(** A [File] of the browser: its name, its MIME type, its size, and what
    the PDF parser makes of its bytes (the text items of each page, or
    the exception it throws). *)
Record File : Type := mkFile {
  file_name : string;
  file_type : string;
  file_size : Z;
  file_document : result Pdf
}.

(** The six [useState] cells. *)
Record state : Type := mkState {
  st_file : option File;
  st_outline : option Outline;
  st_isLoading : bool;
  st_error : option string;
  st_isCopied : bool;
  st_dragActive : bool
}.

(** The state of the first render. *)
Definition initial : state :=
  {| st_file := None; st_outline := None; st_isLoading := false;
     st_error := None; st_isCopied := false; st_dragActive := false |}.

Definition setFile (v : option File) (s : state) : state :=
  {| st_file := v; st_outline := st_outline s; st_isLoading := st_isLoading s;
     st_error := st_error s; st_isCopied := st_isCopied s;
     st_dragActive := st_dragActive s |}.

Definition setOutline (v : option Outline) (s : state) : state :=
  {| st_file := st_file s; st_outline := v; st_isLoading := st_isLoading s;
     st_error := st_error s; st_isCopied := st_isCopied s;
     st_dragActive := st_dragActive s |}.

Definition setIsLoading (v : bool) (s : state) : state :=
  {| st_file := st_file s; st_outline := st_outline s; st_isLoading := v;
     st_error := st_error s; st_isCopied := st_isCopied s;
     st_dragActive := st_dragActive s |}.

Definition setError (v : option string) (s : state) : state :=
  {| st_file := st_file s; st_outline := st_outline s;
     st_isLoading := st_isLoading s; st_error := v;
     st_isCopied := st_isCopied s; st_dragActive := st_dragActive s |}.

Definition setDragActive (v : bool) (s : state) : state :=
  {| st_file := st_file s; st_outline := st_outline s;
     st_isLoading := st_isLoading s; st_error := st_error s;
     st_isCopied := st_isCopied s; st_dragActive := v |}.

(** [handleFileValidation]: the new state and the boolean returned. *)
Definition handleFileValidation (selectedFile : option File) (s : state)
  : state * bool :=
  match selectedFile with
  | Some selectedFile =>
      if negb (String.eqb (file_type selectedFile) "application/pdf") then
        (setFile None (setError (Some "Invalid file type. Please upload a PDF.") s),
         false)
      else
        (setFile (Some selectedFile) (setOutline None (setError None s)), true)
  | None => (s, false)
  end.

(** [handleDrag], on the type of the event. *)
Definition handleDrag (type : string) (s : state) : state :=
  if String.eqb type "dragenter" || String.eqb type "dragover"
  then setDragActive true s
  else if String.eqb type "dragleave" then setDragActive false s
  else s.

(** [files && files[0]]: the first file of a list of files, if any. *)
Definition firstFile (files : option (list File)) : option File :=
  match files with
  | Some (f :: _) => Some f
  | _ => None
  end.

(** [handleDrop], on [e.dataTransfer.files]. *)
Definition handleDrop (files : option (list File)) (s : state) : state :=
  let s := setDragActive false s in
  match firstFile files with
  | Some f => fst (handleFileValidation (Some f) s)
  | None => s
  end.

(** [handleFileChange], on [e.target.files]. *)
Definition handleFileChange (files : option (list File)) (s : state) : state :=
  match firstFile files with
  | Some f => fst (handleFileValidation (Some f) s)
  | None => s
  end.

(** [extractOutlineFromPdf(file)] from the file on: the parser's
    exception, if any, is the exception of the extraction. *)
Definition extractOutlineFromFile (file : File) : result Outline :=
  pdf <- file_document file ;; extractOutlineFromPdf pdf.

(** [handleExtract], from its first statement to the end of [finally]. *)
Definition handleExtract (s : state) : state :=
  match st_file s with
  | None => setError (Some "Please select a file first.") s
  | Some file =>
      let s := setOutline None (setError None (setIsLoading true s)) in
      let s :=
        match
          (result <- extractOutlineFromFile file ;;
           match title result, outline result with
           | EmptyString, [] => Throw NoStructureFound
           | _, _ => Ok result
           end)
        with
        | Ok result => setFile None (setOutline (Some result) s)
        | Throw e => setOutline None (setError (Some (errorMessage e)) s)
        end in
      setIsLoading false s
  end.

(** [disabled={isLoading || !file}] of the button. *)
Definition extractDisabled (s : state) : bool :=
  st_isLoading s || match st_file s with None => true | Some _ => false end.

(** What the user does. *)
Inductive event : Type :=
| Drag (type : string)
| Drop (files : option (list File))
| FileChange (files : option (list File))
| Extract.

Definition handle (s : state) (e : event) : state :=
  match e with
  | Drag type => handleDrag type s
  | Drop files => handleDrop files s
  | FileChange files => handleFileChange files s
  | Extract => handleExtract s
  end.

(** The state after a sequence of events, each handled to its end. *)
Definition run (events : list event) : state := fold_left handle events initial.

End Home.

(* ================================================================== *)
(** * Notions of the specification *)
(* ================================================================== *)

(** The quantized vertical origin of a fragment. *)
Definition lineKey (item : TextItem) : Z := Js.Math_round (transform_5 item).

(** The fragments of a page whose vertical origin rounds to [k], in the
    order of the page. *)
Definition itemsAt (k : Z) (items : list TextItem) : list TextItem :=
  filter (fun item => lineKey item =? k) items.

(** The line the specification describes for the fragments [group],
    already in horizontal order and headed by [firstItem], at the
    quantized position [k] of page [pageNumber]. *)
Definition mergedLine (pageNumber k : Z) (firstItem : TextItem)
  (group : list TextItem) : Line :=
  {| text := Js.collapse (Js.trim (Js.join " " (map str group)));
     x := transform_4 firstItem;
     y := inject_Z k;
     height := item_height firstItem;
     fontName := item_fontName firstItem;
     page := pageNumber |}.

(** Lines from top to bottom. *)
Definition nonIncreasingY (lines : list Line) : Prop :=
  StronglySorted (fun a b => (y b <= y a)%Q) lines.

(** The lines at the quantized position [k]. *)
Definition linesAt (k : Z) (lines : list Line) : list Line :=
  filter (fun line => Qeq_bool (y line) (inject_Z k)) lines.

(** The fragments of the specification's example. *)
Definition helloWorld : list TextItem :=
  [ {| str := "Hello"; transform_4 := 10; transform_5 := 700;
       item_height := 20; item_fontName := "g_d0_f1" |};
    {| str := "World"; transform_4 := 60; transform_5 := 700;
       item_height := 20; item_fontName := "g_d0_f1" |} ].

(** The rounded height of a line, its font-size bucket. *)
Definition roundedHeight (line : Line) : Z := Js.Math_round (height line).

(** [rank] is the index of [size] in [sizes]: its first position. *)
Definition isRank (sizes : list Z) (size : Z) (rank : nat) : Prop :=
  nth_error sizes rank = Some size /\
  forall j, (j < rank)%nat -> nth_error sizes j <> Some size.

(** The three textual exclusion rules of the Heading Classifier. *)
Definition excluded (titleText : string) (line : Line) : Prop :=
  Js.length (text line) <= 3 \/
  Js.test_digits (text line) = true \/
  Js.toLowerCase (text line) = Js.toLowerCase titleText.

(** The pair that identifies a heading in the outline. *)
Definition entryKey (h : Heading) : string * Z := (h_text h, h_page h).

(** Dropping every heading whose pair repeats that of a heading kept
    before it; [kept] are the headings kept so far. *)
Fixpoint dropRepeated (kept rest : list Heading) : list Heading :=
  match rest with
  | [] => []
  | h :: rest' =>
      if existsb (fun k => sameEntry h k) kept then dropRepeated kept rest'
      else h :: dropRepeated (kept ++ [h]) rest'
  end.

(** [l1] is [l2] with some elements left out, the order kept. *)
Inductive subsequence {A : Type} : list A -> list A -> Prop :=
| subsequence_nil : subsequence [] []
| subsequence_skip a l1 l2 : subsequence l1 l2 -> subsequence l1 (a :: l2)
| subsequence_take a l1 l2 : subsequence l1 l2 -> subsequence (a :: l1) (a :: l2).

(** Document order: page ascending, and from top to bottom in a page. *)
Definition inDocumentOrder (a b : Line) : Prop :=
  page a < page b \/ (page a = page b /\ (y b <= y a)%Q).

(** A document of three pages for the examples: a title and body text on
    page 1, the same section heading drawn twice on page 2 and once more
    on page 3, and a bare page number. *)
Definition sampleItem (s : string) (originX originY h : Q) : TextItem :=
  {| str := s; transform_4 := originX; transform_5 := originY;
     item_height := h; item_fontName := "g_d0_f1" |}.

Definition samplePdf : Pdf :=
  [ [ sampleItem "Annual Report" 72 750 22;
      sampleItem "This report covers the whole of the fiscal year." 72 700 12 ];
    [ sampleItem "Overview" 72 760 18;
      sampleItem "Overview" 72 (1481 # 2) 18;
      sampleItem "Revenue grew in every region during the year." 72 700 12;
      sampleItem "7" 300 40 18 ];
    [ sampleItem "Overview" 72 760 18;
      sampleItem "Costs fell in most regions during the year." 72 700 12 ] ].

(** [line] is accumulated into the bucket of the rounded height [h]. *)
Definition countsAt (h : Z) (line : Line) : bool :=
  qualifies line && (roundedHeight line =? h).

(** The text length accumulated at the rounded height [h]. *)
Fixpoint bucketTotal (lines : list Line) (h : Z) : Z :=
  match lines with
  | [] => 0
  | line :: rest =>
      (if countsAt h line then Js.length (text line) else 0)
      + bucketTotal rest h
  end.

(** There is a bucket for the rounded height [h]. *)
Definition hasBucket (lines : list Line) (h : Z) : Prop :=
  exists line, In line lines /\ qualifies line = true /\ roundedHeight line = h.

(** The Font Profiler as the specification words it: every line of more
    than 2 characters is accumulated (a [Line] always has a height) at
    its rounded height; [bodySize] is the height of a bucket with the
    largest total, and 12 when there is no bucket; [headingSizes] are the
    bucket heights above [bodySize], in descending order. *)
Fixpoint claimedTotal (lines : list Line) (h : Z) : Z :=
  match lines with
  | [] => 0
  | line :: rest =>
      (if (2 <? Js.length (text line)) && (roundedHeight line =? h)
       then Js.length (text line) else 0)
      + claimedTotal rest h
  end.

Definition claimedFontProfile (lines : list Line) : Prop :=
  let stats := getFontStatistics lines in
  (forall h, Js.get (fontStatsOf lines) h =
             if claimedTotal lines h =? 0 then None
             else Some (claimedTotal lines h)) /\
  ((forall h, claimedTotal lines h = 0) -> bodySize stats = 12) /\
  ((exists h, 0 < claimedTotal lines h) ->
   0 < claimedTotal lines (bodySize stats) /\
   forall h, claimedTotal lines h <= claimedTotal lines (bodySize stats)) /\
  (forall h, In h (headingSizes stats) <->
             0 < claimedTotal lines h /\ bodySize stats < h) /\
  StronglySorted (fun a b => b < a) (headingSizes stats).

(** Lines for the examples of the Font Profiler: [n] characters of text
    at a given glyph height. *)
Fixpoint filler (n : nat) : string :=
  match n with
  | O => EmptyString
  | S n' => String "x" (filler n')
  end.

Definition lineOf (n : nat) (h : Q) (top : Q) : Line :=
  {| text := filler n; x := 72; y := top; height := h;
     fontName := "g_d0_f1"; page := 1 |}.

(** 500 characters at height 12 and 40 characters at height 18. *)
Definition bodyAndHeading : list Line :=
  [ lineOf 40 18 760; lineOf 250 12 700; lineOf 250 (119 # 10) 680 ].

(** Three characters of text at a glyph height that rounds to 0. *)
Definition tinyLines : list Line := [ lineOf 3 (2 # 5) 700 ].

(** Three characters of text at the glyph height 0. *)
Definition flatLines : list Line := [ lineOf 3 0 700 ].

(** The lines of pages 1 and 2, the candidates for the title. *)
Definition firstPages (allLines : list Line) : list Line :=
  filter (fun l => page l <=? 2) allLines.

(** [m] is the maximum height among [lines]. *)
Definition isMaxHeight (m : Q) (lines : list Line) : Prop :=
  (exists line, In line lines /\ height line = m) /\
  forall line, In line lines -> (height line <= m)%Q.

(** The height of [line] differs from [m] by less than 1. *)
Definition nearMax (m : Q) (line : Line) : bool :=
  Js.Qltb (Qabs (height line - m)) 1.

(** The difference of the height of [line] and [m], as double arithmetic
    rounds it, is less than 1. *)
Definition nearMaxInDoubles (m : Q) (line : Line) : bool :=
  Js.roundsBelowOne (Qabs (height line - m)).

(** The title as the specification words it: the texts of the lines of
    pages 1 and 2 whose height differs from the maximum height by less
    than 1, by descending [y], joined with single spaces. *)
Definition claimedTitleOf (allLines : list Line) : string :=
  match Js.Math_max (map height (firstPages allLines)) with
  | Js.Finite m =>
      Js.join " "
        (map text (Js.sort byYDesc (filter (nearMax m) (firstPages allLines))))
  | Js.NegInfinity => EmptyString
  end.

(** The lines of the specification's title example: heights 22, 22 and
    14 at the vertical positions 750, 720 and 690. *)
Definition titleExample : list Line :=
  [ {| text := "Deep"; x := 72; y := 750; height := 22;
       fontName := "g_d0_f1"; page := 1 |};
    {| text := "Learning"; x := 72; y := 720; height := 22;
       fontName := "g_d0_f1"; page := 1 |};
    {| text := "A survey of methods"; x := 72; y := 690; height := 14;
       fontName := "g_d0_f2"; page := 2 |} ].

(** Two lines of page 1 whose heights, 1 and 2^-60, differ by less than
    1, and by 1 once the difference is rounded to a double. *)
Definition roundingExample : list Line :=
  [ {| text := "Main"; x := 72; y := 750; height := 1;
       fontName := "g_d0_f1"; page := 1 |};
    {| text := "Tiny"; x := 72; y := 720;
       height := 1 # 1152921504606846976;
       fontName := "g_d0_f1"; page := 1 |} ].

(** A document whose text begins on page 3. *)
Definition latePdf : Pdf :=
  [ []; [];
    [ sampleItem "Appendix" 72 760 18;
      sampleItem "Tables and figures of the survey, in full." 72 700 12 ] ].

(** A document whose text begins on page 3 and has one font size. *)
Definition plainLatePdf : Pdf :=
  [ []; []; [ sampleItem "Tables and figures of the survey." 72 700 12 ] ].

(** A document of one line, a single word. *)
Definition oneWordPdf : Pdf := [ [ sampleItem "Word" 72 700 12 ] ].

(** An image-only document of two pages. *)
Definition imageOnlyPdf : Pdf := [ []; [] ].

(* ================================================================== *)
(** * Further notions *)
(* ================================================================== *)

(** The characters of a string. *)
Definition chars (s : string) : list ascii := list_ascii_of_string s.

(** The depth of a level: 1 for 'H1', ..., 6 for 'H6'. *)
Definition levelDepth (lvl : string) : nat :=
  if String.eqb lvl "H1" then 1
  else if String.eqb lvl "H2" then 2
  else if String.eqb lvl "H3" then 3
  else if String.eqb lvl "H4" then 4
  else if String.eqb lvl "H5" then 5
  else if String.eqb lvl "H6" then 6
  else 0.

(** A page of fragments that has at least one fragment. *)
Definition hasFragment (items : list TextItem) : Prop := items <> [].

(** A PDF file and a file of another type, for the examples. *)
Definition reportFile : Home.File :=
  {| Home.file_name := "report.pdf"; Home.file_type := "application/pdf";
     Home.file_size := 48213; Home.file_document := Ok samplePdf |}.

Definition scanFile : Home.File :=
  {| Home.file_name := "scan.pdf"; Home.file_type := "application/pdf";
     Home.file_size := 901442; Home.file_document := Ok imageOnlyPdf |}.

Definition notesFile : Home.File :=
  {| Home.file_name := "notes.txt"; Home.file_type := "text/plain";
     Home.file_size := 120; Home.file_document := Ok [] |}.

(** What holds of the component state after every handler. *)
Definition settled (s : Home.state) : Prop :=
  (forall f, Home.st_file s = Some f ->
             Home.file_type f = "application/pdf") /\
  Home.st_isLoading s = false /\
  (forall r, Home.st_outline s = Some r ->
             (title r <> "" \/ outline r <> []) /\
             exists f pdf,
               Home.file_type f = "application/pdf" /\
               Home.file_document f = Ok pdf /\
               extractOutlineFromPdf pdf = Ok r) /\
  (forall m, Home.st_error s = Some m -> m <> "").

(* ================================================================== *)
(** * Facts about the JavaScript primitives *)
(* ================================================================== *)

Module JsFacts.
Import Js.

(** ** The stable sort *)

Section Sort.
Context {A : Type}.
Variable gtb : A -> A -> bool.

Lemma insert_perm a l : Permutation (insert gtb a l) (a :: l).
Proof.
  induction l as [|b l IH]; simpl; [reflexivity|].
  destruct (gtb a b); [|reflexivity].
  etransitivity; [apply perm_skip, IH | apply perm_swap].
Qed.

Lemma sort_perm l : Permutation (sort gtb l) l.
Proof.
  induction l as [|a l IH]; simpl; [constructor|].
  etransitivity; [apply insert_perm | apply perm_skip, IH].
Qed.

Lemma sort_In a l : In a (sort gtb l) <-> In a l.
Proof.
  split; apply Permutation_in;
    [apply sort_perm | apply Permutation_sym, sort_perm].
Qed.

Lemma sort_nil_inv l : sort gtb l = [] -> l = [].
Proof.
  intros H. apply Permutation_nil.
  rewrite <- H. apply sort_perm.
Qed.

Hypothesis gtb_asym : forall a b, gtb a b = true -> gtb b a = false.
Hypothesis before_trans :
  forall a b c, before gtb a b -> before gtb b c -> before gtb a c.

Lemma insert_sorted a l :
  StronglySorted (before gtb) l -> StronglySorted (before gtb) (insert gtb a l).
Proof.
  induction 1 as [|b l Hs IH Hb]; simpl.
  - repeat constructor.
  - destruct (gtb a b) eqn:E.
    + constructor; [exact IH|].
      rewrite Forall_forall in *. intros c Hc.
      apply (Permutation_in _ (insert_perm a l)) in Hc.
      destruct Hc as [<-|Hc]; [apply gtb_asym, E | auto].
    + constructor; [constructor; assumption|].
      constructor; [exact E|].
      rewrite Forall_forall in *. intros c Hc.
      apply before_trans with b; [exact E | auto].
Qed.

Lemma sort_sorted l : StronglySorted (before gtb) (sort gtb l).
Proof.
  induction l; simpl; [constructor | apply insert_sorted; assumption].
Qed.

Lemma insert_head a l : Forall (before gtb a) l -> insert gtb a l = a :: l.
Proof.
  destruct 1 as [|b l Hb _]; simpl; [reflexivity|].
  unfold before in Hb. now rewrite Hb.
Qed.

Lemma sort_of_sorted l : StronglySorted (before gtb) l -> sort gtb l = l.
Proof.
  induction 1 as [|a l Hs IH Ha]; simpl; [reflexivity|].
  rewrite IH. now apply insert_head.
Qed.

Lemma sort_idempotent l : sort gtb (sort gtb l) = sort gtb l.
Proof. apply sort_of_sorted, sort_sorted. Qed.

(** Stability: sorting and filtering commute. *)
Lemma filter_insert (p : A -> bool) a l :
  StronglySorted (before gtb) l ->
  filter p (insert gtb a l) =
  if p a then insert gtb a (filter p l) else filter p l.
Proof.
  induction 1 as [|b l Hs IH Hb]; simpl.
  - destruct (p a); reflexivity.
  - destruct (gtb a b) eqn:E; simpl.
    + rewrite IH. destruct (p b), (p a); simpl; try reflexivity.
      now rewrite E.
    + destruct (p a) eqn:Ea, (p b) eqn:Eb; simpl; rewrite ?E; try reflexivity.
      symmetry. apply insert_head.
      rewrite Forall_forall in *. intros c Hc.
      apply filter_In in Hc as [Hc _].
      apply before_trans with b; [exact E | auto].
Qed.

Lemma filter_sort (p : A -> bool) l :
  filter p (sort gtb l) = sort gtb (filter p l).
Proof.
  induction l as [|a l IH]; simpl; [reflexivity|].
  rewrite filter_insert by apply sort_sorted.
  rewrite IH. destruct (p a); reflexivity.
Qed.
End Sort.

(** Comparators that compare a key of the two elements. *)

Lemma Qltb_true a b : Qltb a b = true <-> (a < b)%Q.
Proof.
  unfold Qltb. rewrite negb_true_iff.
  destruct (Qle_bool b a) eqn:E.
  - apply Qle_bool_iff in E. split; [discriminate|].
    intros H. exfalso. eapply Qlt_not_le; eauto.
  - split; [intros _|reflexivity].
    apply Qnot_le_lt. intros H. apply Qle_bool_iff in H. congruence.
Qed.

Lemma Qltb_false a b : Qltb a b = false <-> (b <= a)%Q.
Proof.
  unfold Qltb. rewrite negb_false_iff. apply Qle_bool_iff.
Qed.

(** ** Objects *)

Section ObjectFacts.
Context {V : Type}.
Implicit Types (o : object V) (k : Z) (v : V).

Lemma get_set o k v k' :
  get (set o k v) k' = if k =? k' then Some v else get o k'.
Proof.
  induction o as [|[k0 v0] o IH]; simpl.
  - destruct (k =? k'); reflexivity.
  - destruct (k0 =? k) eqn:E; simpl.
    + apply Z.eqb_eq in E. subst k0. destruct (k =? k'); reflexivity.
    + rewrite IH. destruct (k0 =? k') eqn:E'; [|reflexivity].
      apply Z.eqb_eq in E'. subst k0. now rewrite Z.eqb_sym, E.
Qed.

Lemma get_None o k : get o k = None <-> ~ In k (map fst o).
Proof.
  induction o as [|[k0 v0] o IH]; simpl; [tauto|].
  destruct (k0 =? k) eqn:E.
  - apply Z.eqb_eq in E. split; [discriminate | tauto].
  - apply Z.eqb_neq in E. tauto.
Qed.

Lemma keys_set o k v :
  map fst (set o k v) =
  match get o k with
  | Some _ => map fst o
  | None => map fst o ++ [k]
  end.
Proof.
  induction o as [|[k0 v0] o IH]; simpl; [reflexivity|].
  destruct (k0 =? k) eqn:E; simpl; [reflexivity|].
  rewrite IH. destruct (get o k); reflexivity.
Qed.

Lemma NoDup_keys_set o k v :
  NoDup (map fst o) -> NoDup (map fst (set o k v)).
Proof.
  intros H. rewrite keys_set. destruct (get o k) eqn:E; [exact H|].
  apply get_None in E.
  apply Permutation_NoDup with (k :: map fst o).
  - apply Permutation_cons_append.
  - now constructor.
Qed.

Lemma get_In o k v : get o k = Some v -> In (k, v) o.
Proof.
  induction o as [|[k0 v0] o IH]; simpl; [discriminate|].
  destruct (k0 =? k) eqn:E.
  - apply Z.eqb_eq in E. intros [= ->]. left. now subst.
  - auto.
Qed.

Lemma In_get o k v : NoDup (map fst o) -> In (k, v) o -> get o k = Some v.
Proof.
  induction o as [|[k0 v0] o IH]; simpl; [tauto|].
  intros Hnd [H|H]; inversion Hnd as [|? ? Hk Hnd']; subst.
  - injection H as -> ->. now rewrite Z.eqb_refl.
  - destruct (k0 =? k) eqn:E; [|auto].
    apply Z.eqb_eq in E. subst k0. exfalso. apply Hk.
    apply (in_map fst) in H. exact H.
Qed.

Lemma filter_partition_perm {A : Type} (p : A -> bool) (l : list A) :
  Permutation (filter p l ++ filter (fun a => negb (p a)) l) l.
Proof.
  induction l as [|a l IH]; simpl; [constructor|].
  destruct (p a); simpl.
  - now apply perm_skip.
  - etransitivity; [apply Permutation_sym, Permutation_middle|].
    now apply perm_skip.
Qed.

Lemma entries_perm o : Permutation (entries o) o.
Proof.
  unfold entries.
  etransitivity; [|apply (filter_partition_perm (fun e => isArrayIndex (fst e)))].
  apply Permutation_app_tail, sort_perm.
Qed.

Lemma entries_In o e : In e (entries o) <-> In e o.
Proof.
  split; apply Permutation_in;
    [apply entries_perm | apply Permutation_sym, entries_perm].
Qed.

Lemma entries_keys_NoDup o :
  NoDup (map fst o) -> NoDup (map fst (entries o)).
Proof.
  apply Permutation_NoDup, Permutation_map, Permutation_sym, entries_perm.
Qed.
End ObjectFacts.

(** ** Trimming and collapsing white space commute *)

Lemma trimEnd_empty s : trimEnd s = EmptyString <-> allWhiteSpace s = true.
Proof.
  induction s as [|c s IH]; simpl; [tauto|].
  destruct (trimEnd s) eqn:E, (isWhiteSpace c); simpl;
    intuition discriminate.
Qed.

Lemma collapse_run_empty s :
  collapse_from true s = EmptyString <-> allWhiteSpace s = true.
Proof.
  induction s as [|c s IH]; simpl; [tauto|].
  destruct (isWhiteSpace c); simpl; [exact IH | intuition discriminate].
Qed.

Lemma trimEnd_cons c s :
  trimEnd (String c s) =
  if isWhiteSpace c && allWhiteSpace s then EmptyString
  else String c (trimEnd s).
Proof.
  simpl. destruct (trimEnd s) eqn:E.
  - apply trimEnd_empty in E. rewrite E, andb_true_r.
    destruct (isWhiteSpace c); reflexivity.
  - destruct (allWhiteSpace s) eqn:Ea.
    + apply trimEnd_empty in Ea. congruence.
    + now rewrite andb_false_r.
Qed.

Lemma allWhiteSpace_trimEnd s : allWhiteSpace (trimEnd s) = allWhiteSpace s.
Proof.
  induction s as [|c s IH]; [reflexivity|].
  rewrite trimEnd_cons. cbn [allWhiteSpace].
  destruct (isWhiteSpace c) eqn:Ec, (allWhiteSpace s) eqn:Ea;
    cbn [andb allWhiteSpace]; rewrite ?Ec, ?IH; reflexivity.
Qed.

Lemma allWhiteSpace_collapse b s :
  allWhiteSpace (collapse_from b s) = allWhiteSpace s.
Proof.
  revert b. induction s as [|c s IH]; intros b; [reflexivity|].
  simpl. destruct (isWhiteSpace c) eqn:Ec.
  - destruct b; simpl; apply IH.
  - simpl. now rewrite Ec.
Qed.

Lemma trimEnd_collapse b s :
  trimEnd (collapse_from b s) = collapse_from b (trimEnd s).
Proof.
  revert b. induction s as [|c s IH]; intros b; [reflexivity|].
  rewrite trimEnd_cons.
  cbn [collapse_from]. destruct (isWhiteSpace c) eqn:Ec; cbn [andb].
  - destruct (allWhiteSpace s) eqn:Ea.
    + destruct b.
      * rewrite IH. apply trimEnd_empty in Ea. now rewrite Ea.
      * rewrite trimEnd_cons, allWhiteSpace_collapse, Ea. reflexivity.
    + destruct b.
      * rewrite IH. cbn [collapse_from]. now rewrite Ec.
      * rewrite trimEnd_cons, allWhiteSpace_collapse, Ea, andb_false_r, IH.
        cbn [collapse_from]. now rewrite Ec.
  - rewrite trimEnd_cons, Ec. cbn [andb collapse_from]. rewrite Ec, IH.
    reflexivity.
Qed.

Lemma collapse_run_trimStart s :
  collapse_from true s = collapse_from false (trimStart s).
Proof.
  induction s as [|c s IH]; [reflexivity|].
  simpl. destruct (isWhiteSpace c) eqn:Ec; [exact IH|].
  simpl. now rewrite Ec.
Qed.

Lemma trimStart_collapse b s :
  trimStart (collapse_from b s) = collapse_from false (trimStart s).
Proof.
  revert b. induction s as [|c s IH]; intros b; [reflexivity|].
  simpl. destruct (isWhiteSpace c) eqn:Ec.
  - destruct b; [apply IH|]. simpl. apply IH.
  - simpl. now rewrite Ec.
Qed.

(** [s.trim().replace(/\s+/g, ' ')] is [s.replace(/\s+/g, ' ').trim()]. *)
Lemma collapse_trim s : collapse (trim s) = trim (collapse s).
Proof.
  unfold collapse, trim.
  now rewrite trimStart_collapse, trimEnd_collapse.
Qed.

End JsFacts.

(* ================================================================== *)
(** * The Line Assembler *)
(* ================================================================== *)

Lemma mapM_ok {A B : Type} (f : A -> result B) (l : list A) :
  (forall a, In a l -> exists b, f a = Ok b) ->
  exists bs, mapM f l = Ok bs /\ Forall2 (fun a b => f a = Ok b) l bs.
Proof.
  induction l as [|a l IH]; intros H; simpl.
  - exists []. split; [reflexivity | constructor].
  - destruct (H a (or_introl eq_refl)) as [b Hb].
    destruct IH as [bs [Hbs HF]]; [intros; apply H; now right|].
    exists (b :: bs). rewrite Hb, Hbs. split; [reflexivity|].
    now constructor.
Qed.

Lemma Forall2_In_l {A B : Type} (R : A -> B -> Prop) l bs a :
  Forall2 R l bs -> In a l -> exists b, In b bs /\ R a b.
Proof.
  induction 1 as [|a0 b0 l bs HR HF IH]; simpl; [tauto|].
  intros [<-|Ha]; [eauto|].
  destruct (IH Ha) as [b [Hb Hab]]. eauto.
Qed.

Lemma Forall2_In_r {A B : Type} (R : A -> B -> Prop) l bs b :
  Forall2 R l bs -> In b bs -> exists a, In a l /\ R a b.
Proof.
  induction 1 as [|a0 b0 l bs HR HF IH]; simpl; [tauto|].
  intros [<-|Hb]; [eauto|].
  destruct (IH Hb) as [a [Ha Hab]]. eauto.
Qed.

Lemma itemsAt_snoc k items item :
  itemsAt k (items ++ [item]) =
  itemsAt k items ++ (if lineKey item =? k then [item] else []).
Proof. unfold itemsAt. rewrite filter_app. reflexivity. Qed.

Lemma groupItems_snoc items item :
  groupItems (items ++ [item]) = groupItem (groupItems items) item.
Proof. unfold groupItems. rewrite fold_left_app. reflexivity. Qed.

(** What [itemGroups] holds after the [forEach]: under each quantized
    position, the fragments at that position in the order of the page. *)
Lemma groupItems_spec items :
  NoDup (map fst (groupItems items)) /\
  forall k, Js.get (groupItems items) k =
            match itemsAt k items with
            | [] => None
            | group => Some group
            end.
Proof.
  induction items as [|item items [IHnd IHget]] using rev_ind.
  - split; [constructor | reflexivity].
  - rewrite groupItems_snoc. unfold groupItem. fold (lineKey item).
    set (g := groupItems items) in *.
    assert (Hy := IHget (lineKey item)).
    destruct (Js.get g (lineKey item)) as [group|] eqn:E.
    + rewrite E. split; [now apply JsFacts.NoDup_keys_set|].
      intros k. rewrite JsFacts.get_set, itemsAt_snoc.
      destruct (lineKey item =? k) eqn:Ek.
      * apply Z.eqb_eq in Ek. subst k.
        destruct (itemsAt (lineKey item) items); [discriminate|].
        injection Hy as ->. reflexivity.
      * rewrite app_nil_r. apply IHget.
    + rewrite JsFacts.get_set, Z.eqb_refl.
      split; [now do 2 apply JsFacts.NoDup_keys_set|].
      intros k. rewrite !JsFacts.get_set, itemsAt_snoc.
      destruct (lineKey item =? k) eqn:Ek.
      * apply Z.eqb_eq in Ek. subst k.
        destruct (itemsAt (lineKey item) items); [reflexivity | discriminate].
      * rewrite app_nil_r. apply IHget.
Qed.

Lemma groupItems_entry items k group :
  In (k, group) (Js.entries (groupItems items)) <->
  group = itemsAt k items /\ group <> [].
Proof.
  destruct (groupItems_spec items) as [Hnd Hget].
  rewrite JsFacts.entries_In. split.
  - intros H. apply (JsFacts.In_get _ _ _ Hnd) in H.
    rewrite Hget in H. destruct (itemsAt k items); [discriminate|].
    injection H as <-. split; [reflexivity | discriminate].
  - intros [-> Hne]. apply JsFacts.get_In. rewrite Hget.
    destruct (itemsAt k items); [contradiction | reflexivity].
Qed.

Lemma itemsAt_nonempty k items :
  itemsAt k items <> [] <-> exists item, In item items /\ lineKey item = k.
Proof.
  unfold itemsAt. split.
  - destruct (filter _ items) as [|item l] eqn:E; [contradiction|].
    intros _. exists item.
    assert (H : In item (filter (fun i => lineKey i =? k) items))
      by (rewrite E; now left).
    apply filter_In in H as [H1 H2]. apply Z.eqb_eq in H2. auto.
  - intros [item [H1 H2]] E.
    assert (H : In item (filter (fun i => lineKey i =? k) items))
      by (apply filter_In; split; [assumption | now apply Z.eqb_eq]).
    rewrite E in H. exact H.
Qed.

(** The two comparators of the assembler are key comparisons. *)
Lemma byX_asym a b : byX a b = true -> byX b a = false.
Proof.
  unfold byX. rewrite JsFacts.Qltb_true, JsFacts.Qltb_false. apply Qlt_le_weak.
Qed.

Lemma byX_trans a b c : byX a b = false -> byX b c = false -> byX a c = false.
Proof.
  unfold byX. rewrite !JsFacts.Qltb_false. intros H1 H2. now apply Qle_trans with (transform_4 b).
Qed.

Lemma byYDesc_asym a b : byYDesc a b = true -> byYDesc b a = false.
Proof.
  unfold byYDesc. rewrite JsFacts.Qltb_true, JsFacts.Qltb_false. apply Qlt_le_weak.
Qed.

Lemma byYDesc_trans a b c :
  byYDesc a b = false -> byYDesc b c = false -> byYDesc a c = false.
Proof.
  unfold byYDesc. rewrite !JsFacts.Qltb_false. intros H1 H2.
  now apply Qle_trans with (y b).
Qed.

Lemma sort_byYDesc_nonIncreasing lines : nonIncreasingY (Js.sort byYDesc lines).
Proof.
  unfold nonIncreasingY.
  assert (H := JsFacts.sort_sorted byYDesc_asym byYDesc_trans lines).
  induction H as [|a l Hs IH Ha]; constructor; [exact IH|].
  eapply Forall_impl; [|exact Ha].
  intros b Hb. now apply JsFacts.Qltb_false.
Qed.

Lemma sort_byX_ascending items :
  StronglySorted (fun a b => (transform_4 a <= transform_4 b)%Q)
                 (Js.sort byX items).
Proof.
  assert (H := JsFacts.sort_sorted byX_asym byX_trans items).
  induction H as [|a l Hs IH Ha]; constructor; [exact IH|].
  eapply Forall_impl; [|exact Ha].
  intros b Hb. now apply JsFacts.Qltb_false.
Qed.

(** The line of one group, when the group is not empty. *)
Lemma lineOfGroup_ok pageNumber k group :
  group <> [] ->
  exists firstItem others,
    Js.sort byX group = firstItem :: others /\
    lineOfGroup pageNumber (k, group) =
    Ok (mergedLine pageNumber k firstItem (Js.sort byX group)).
Proof.
  intros Hne. unfold lineOfGroup.
  destruct (Js.sort byX group) as [|firstItem others] eqn:E.
  - apply JsFacts.sort_nil_inv in E. contradiction.
  - exists firstItem, others. split; reflexivity.
Qed.

(** [getLinesFromPage] never throws: its result is the sorted list of
    the lines of the groups. *)
Lemma getLinesFromPage_ok pageNumber items :
  exists unsorted,
    getLinesFromPage pageNumber items = Ok (Js.sort byYDesc unsorted) /\
    Forall2 (fun entry line => lineOfGroup pageNumber entry = Ok line)
            (Js.entries (groupItems items)) unsorted.
Proof.
  destruct (mapM_ok (lineOfGroup pageNumber) (Js.entries (groupItems items)))
    as [unsorted [HM HF]].
  - intros [k group] H. apply groupItems_entry in H as [_ Hne].
    destruct (lineOfGroup_ok pageNumber k Hne) as [f [o [_ H]]]. eauto.
  - exists unsorted. split; [|exact HF].
    unfold getLinesFromPage. rewrite HM. destruct items as [|item items].
    + cbn in HF. inversion HF. reflexivity.
    + reflexivity.
Qed.

#[local] Arguments lineOfGroup : simpl never.

Lemma lineOfGroup_y pageNumber k group line :
  lineOfGroup pageNumber (k, group) = Ok line -> y line = inject_Z k.
Proof.
  unfold lineOfGroup. destruct (Js.sort byX group); [discriminate|].
  intros [= <-]. reflexivity.
Qed.

Lemma Qeq_bool_inject_Z a b : Qeq_bool (inject_Z a) (inject_Z b) = (a =? b).
Proof.
  destruct (a =? b) eqn:E.
  - apply Z.eqb_eq in E. subst. apply Qeq_bool_iff. reflexivity.
  - apply Z.eqb_neq in E. destruct (Qeq_bool _ _) eqn:E'; [|reflexivity].
    apply Qeq_bool_iff in E'. apply (proj1 (inject_Z_injective a b)) in E'. congruence.
Qed.

Lemma linesAt_absent pageNumber k entries lines :
  Forall2 (fun entry line => lineOfGroup pageNumber entry = Ok line) entries lines ->
  ~ In k (map fst entries) ->
  linesAt k lines = [].
Proof.
  induction 1 as [|[k0 g0] l0 es ls H0 HF IH]; simpl; [reflexivity|].
  intros Hk. apply lineOfGroup_y in H0. rewrite H0, Qeq_bool_inject_Z.
  destruct (k0 =? k) eqn:E; [apply Z.eqb_eq in E; tauto|].
  apply IH. tauto.
Qed.

Lemma linesAt_unique pageNumber k group line entries lines :
  Forall2 (fun entry line => lineOfGroup pageNumber entry = Ok line) entries lines ->
  NoDup (map fst entries) ->
  In (k, group) entries ->
  lineOfGroup pageNumber (k, group) = Ok line ->
  linesAt k lines = [line].
Proof.
  induction 1 as [|[k0 g0] l0 es ls H0 HF IH]; simpl; [tauto|].
  intros Hnd Hin Hline. inversion Hnd as [|? ? Hk0 Hnd']; subst.
  rewrite (lineOfGroup_y _ _ _ H0), Qeq_bool_inject_Z.
  destruct Hin as [Heq|Hin].
  - injection Heq as Hk Hg. subst k0 g0. rewrite Z.eqb_refl.
    assert (l0 = line) by congruence. subst l0.
    f_equal. eapply linesAt_absent; eauto.
  - assert (Hne : k0 <> k).
    { intros ->. apply Hk0. apply (in_map fst) in Hin. exact Hin. }
    apply Z.eqb_neq in Hne. rewrite Hne.
    now apply IH.
Qed.

(** C7: for every page's fragment list the Line Assembler returns a line
    list (it does not throw) ordered by non-increasing [y], top of the
    page first; an empty fragment list yields the empty line list. *)
Theorem line_assembler_ordering :
  forall (pageNumber : Z) (items : list TextItem),
    (exists lines,
        getLinesFromPage pageNumber items = Ok lines /\ nonIncreasingY lines) /\
    getLinesFromPage pageNumber [] = Ok [].
Proof.
  intros pageNumber items. split; [|reflexivity].
  destruct (getLinesFromPage_ok pageNumber items) as [unsorted [H _]].
  exists (Js.sort byYDesc unsorted). split; [exact H|].
  apply sort_byYDesc_nonIncreasing.
Qed.

(** C5: for every page's fragment list and every quantized vertical
    origin [k] that some fragment has, the assembler's result holds
    exactly one line at [k]; it is built from the fragments that round to
    [k], taken in ascending horizontal origin (stably): their texts
    joined with single spaces, then trimmed and white-space collapsed
    (which is the same as collapsed and then trimmed), [y] the
    quantized value, [x], [height] and [fontName] those of the
    horizontally first fragment.  Every line of the result arises this
    way.  The fragments "Hello" (x=10) and "World" (x=60) at y=700,
    h=20 on page 1 give the one line "Hello World" at x=10, y=700,
    height 20, page 1, in either order of arrival. *)
Theorem line_grouping :
  (forall (pageNumber : Z) (items : list TextItem) (k : Z),
      (exists item, In item items /\ lineKey item = k) ->
      exists lines firstItem others,
        getLinesFromPage pageNumber items = Ok lines /\
        Js.sort byX (itemsAt k items) = firstItem :: others /\
        StronglySorted (fun a b => (transform_4 a <= transform_4 b)%Q)
                       (firstItem :: others) /\
        Permutation (firstItem :: others) (itemsAt k items) /\
        linesAt k lines =
          [mergedLine pageNumber k firstItem (firstItem :: others)] /\
        (forall line, In line lines ->
           exists k' first' others',
             Js.sort byX (itemsAt k' items) = first' :: others' /\
             line = mergedLine pageNumber k' first' (first' :: others'))) /\
  (forall (pageNumber k : Z) (firstItem : TextItem) (group : list TextItem),
      text (mergedLine pageNumber k firstItem group) =
      Js.trim (Js.collapse (Js.join " " (map str group)))) /\
  getLinesFromPage 1 helloWorld =
    Ok [ {| text := "Hello World"; x := 10; y := 700; height := 20;
            fontName := "g_d0_f1"; page := 1 |} ] /\
  getLinesFromPage 1 (rev helloWorld) =
    Ok [ {| text := "Hello World"; x := 10; y := 700; height := 20;
            fontName := "g_d0_f1"; page := 1 |} ].
Proof.
  split; [|split; [|split; reflexivity]];
    [|intros; cbn [mergedLine text]; apply JsFacts.collapse_trim].
  intros pageNumber items k Hk.
  apply itemsAt_nonempty in Hk.
  destruct (getLinesFromPage_ok pageNumber items) as [unsorted [Hlines HF]].
  destruct (lineOfGroup_ok pageNumber k Hk) as [firstItem [others [Hsort Hline]]].
  exists (Js.sort byYDesc unsorted), firstItem, others.
  split; [exact Hlines|]. split; [exact Hsort|].
  split; [|split; [|split]].
  - rewrite <- Hsort. apply sort_byX_ascending.
  - rewrite <- Hsort. apply JsFacts.sort_perm.
  - unfold linesAt.
    rewrite (JsFacts.filter_sort byYDesc_asym byYDesc_trans).
    rewrite <- Hsort.
    fold (linesAt k unsorted).
    erewrite linesAt_unique; [reflexivity | exact HF | | | exact Hline].
    + apply JsFacts.entries_keys_NoDup, groupItems_spec.
    + apply groupItems_entry. auto.
  - intros line Hin. apply JsFacts.sort_In in Hin.
    destruct (Forall2_In_r _ HF Hin) as [[k' g'] [He Hl]].
    apply groupItems_entry in He as [-> Hne].
    destruct (lineOfGroup_ok pageNumber k' Hne) as [f' [o' [Hs' Hl']]].
    exists k', f', o'. split; [exact Hs'|].
    rewrite Hl' in Hl. injection Hl as <-. now rewrite Hs'.
Qed.

Lemma line_grouping_witness :
  exists lines firstItem others,
    getLinesFromPage 1 helloWorld = Ok lines /\
    Js.sort byX (itemsAt 700 helloWorld) = firstItem :: others /\
    StronglySorted (fun a b => (transform_4 a <= transform_4 b)%Q)
                   (firstItem :: others) /\
    Permutation (firstItem :: others) (itemsAt 700 helloWorld) /\
    linesAt 700 lines = [mergedLine 1 700 firstItem (firstItem :: others)] /\
    (forall line, In line lines ->
       exists k' first' others',
         Js.sort byX (itemsAt k' helloWorld) = first' :: others' /\
         line = mergedLine 1 k' first' (first' :: others')).
Proof.
  apply (proj1 line_grouping 1 helloWorld 700).
  eexists. split; [left; reflexivity | reflexivity].
Defined.

(* ================================================================== *)
(** * The Heading Classifier *)
(* ================================================================== *)

Lemma indexOf_range sizes size :
  Js.indexOf sizes size = -1 \/ 0 <= Js.indexOf sizes size.
Proof.
  induction sizes as [|s sizes IH]; simpl; [now left|].
  destruct (s =? size); [right; lia|].
  destruct (Js.indexOf sizes size =? -1) eqn:E; [now left | right].
  apply Z.eqb_neq in E. lia.
Qed.

Lemma indexOf_absent sizes size :
  Js.indexOf sizes size = -1 <-> ~ In size sizes.
Proof.
  induction sizes as [|s sizes IH]; simpl; [tauto|].
  destruct (s =? size) eqn:E.
  - apply Z.eqb_eq in E. split; [discriminate | tauto].
  - apply Z.eqb_neq in E.
    destruct (Js.indexOf sizes size =? -1) eqn:E1.
    + apply Z.eqb_eq in E1. tauto.
    + apply Z.eqb_neq in E1.
      destruct (indexOf_range sizes size); [contradiction|].
      split; [lia | tauto].
Qed.

Lemma indexOf_rank sizes size rank :
  isRank sizes size rank -> Js.indexOf sizes size = Z.of_nat rank.
Proof.
  revert rank. induction sizes as [|s sizes IH]; intros rank [Hn Hfirst].
  - destruct rank; discriminate.
  - simpl. destruct rank as [|rank].
    + injection Hn as ->. now rewrite Z.eqb_refl.
    + destruct (s =? size) eqn:E.
      * apply Z.eqb_eq in E. subst s.
        exfalso. apply (Hfirst 0%nat); [lia | reflexivity].
      * rewrite (IH rank).
        -- destruct (Z.of_nat rank =? -1) eqn:E1; [apply Z.eqb_eq in E1|]; lia.
        -- split; [exact Hn|]. intros j Hj. apply (Hfirst (S j)). lia.
Qed.

Lemma In_isRank sizes size :
  In size sizes -> exists rank, isRank sizes size rank.
Proof.
  induction sizes as [|s sizes IH]; simpl; [tauto|].
  intros H. destruct (Z.eq_dec s size) as [->|Hne].
  - exists 0%nat. split; [reflexivity|]. intros j Hj. lia.
  - destruct IH as [rank [Hn Hfirst]]; [tauto|].
    exists (S rank). split; [exact Hn|].
    intros [|j] Hj; simpl; [congruence|]. apply Hfirst. lia.
Qed.

Lemma getHeadingLevel_rank sizes h rank :
  isRank sizes (Js.Math_round h) rank ->
  getHeadingLevel sizes h =
  Some (match rank with
        | 0 => "H1" | 1 => "H2" | 2 => "H3" | 3 => "H4" | 4 => "H5"
        | _ => "H6"
        end)%nat.
Proof.
  intros H. unfold getHeadingLevel. rewrite (indexOf_rank H).
  do 6 (destruct rank as [|rank]; [reflexivity|]).
  replace (Z.of_nat (S (S (S (S (S (S rank)))))) =? -1) with false
    by (symmetry; apply Z.eqb_neq; lia).
  replace (Z.of_nat (S (S (S (S (S (S rank)))))) <? 6) with false
    by (symmetry; apply Z.ltb_ge; lia).
  reflexivity.
Qed.

(** C2: the level of a line is decided by the index (first position) of
    its rounded height in [headingSizes]: absent, the line has no level
    and is not a heading; index 0 gives H1, 1 gives H2, 2 gives H3, 3
    gives H4, 4 gives H5, and every index from 5 on gives H6, so that no
    level other than H1..H6 is ever produced. *)
Theorem heading_level_by_rank :
  forall (headingSizes : list Z) (line : Line),
    (~ In (roundedHeight line) headingSizes ->
       getHeadingLevel headingSizes (height line) = None /\
       forall titleText, classifyLine titleText headingSizes line = None) /\
    (forall rank, isRank headingSizes (roundedHeight line) rank ->
       (rank = 0%nat -> getHeadingLevel headingSizes (height line) = Some "H1") /\
       (rank = 1%nat -> getHeadingLevel headingSizes (height line) = Some "H2") /\
       (rank = 2%nat -> getHeadingLevel headingSizes (height line) = Some "H3") /\
       (rank = 3%nat -> getHeadingLevel headingSizes (height line) = Some "H4") /\
       (rank = 4%nat -> getHeadingLevel headingSizes (height line) = Some "H5") /\
       ((5 <= rank)%nat ->
          getHeadingLevel headingSizes (height line) = Some "H6")) /\
    (In (roundedHeight line) headingSizes ->
       exists rank, isRank headingSizes (roundedHeight line) rank) /\
    (forall lvl, getHeadingLevel headingSizes (height line) = Some lvl ->
       In lvl ["H1"; "H2"; "H3"; "H4"; "H5"; "H6"]) /\
    (forall titleText heading,
       classifyLine titleText headingSizes line = Some heading ->
       getHeadingLevel headingSizes (height line) = Some (level heading)).
Proof.
  intros headingSizes line. unfold roundedHeight.
  assert (Habsent : ~ In (Js.Math_round (height line)) headingSizes ->
                    getHeadingLevel headingSizes (height line) = None).
  { intros H. apply indexOf_absent in H.
    unfold getHeadingLevel. now rewrite H. }
  split; [|split; [|split; [|split]]].
  - intros H. split; [auto|].
    intros titleText. unfold classifyLine. now rewrite Habsent.
  - intros rank H. apply getHeadingLevel_rank in H. rewrite H.
    repeat split; intros Hr; subst; try reflexivity.
    do 5 (destruct rank as [|rank]; [lia|]). destruct rank; reflexivity.
  - apply In_isRank.
  - intros lvl Hlvl.
    destruct (in_dec Z.eq_dec (Js.Math_round (height line)) headingSizes)
      as [Hin|Hout].
    + destruct (In_isRank _ _ Hin) as [rank Hrank].
      rewrite (getHeadingLevel_rank _ Hrank) in Hlvl. injection Hlvl as <-.
      do 6 (destruct rank as [|rank]; [simpl; tauto|]). simpl; tauto.
    + rewrite (Habsent Hout) in Hlvl. discriminate.
  - intros titleText heading. unfold classifyLine.
    destruct (getHeadingLevel headingSizes (height line)); [|discriminate].
    destruct (_ && _); [|discriminate]. intros [= <-]. reflexivity.
Qed.

Lemma heading_level_by_rank_witness :
  getHeadingLevel [18; 16; 14] 16 = Some "H2".
Proof.
  pose (line := {| text := "Background"; x := 72; y := 640; height := 16;
                   fontName := "g_d0_f2"; page := 1 |}).
  assert (Hrank : isRank [18; 16; 14] (roundedHeight line) 1).
  { split; [reflexivity|]. intros [|j] Hj; [discriminate | lia]. }
  exact (proj1 (proj2 (proj1 (proj2 (heading_level_by_rank [18; 16; 14] line))
                         1%nat Hrank)) eq_refl).
Defined.

(* ================================================================== *)
(** * The Outline Assembler *)
(* ================================================================== *)

Lemma sameEntry_key a b : sameEntry a b = true <-> entryKey a = entryKey b.
Proof.
  unfold sameEntry, entryKey.
  rewrite andb_true_iff, String.eqb_eq, Z.eqb_eq.
  split; [intros [-> ->]; reflexivity | intros [= -> ->]; auto].
Qed.

Lemma seen_iff h kept :
  existsb (fun k => sameEntry h k) kept = true <->
  In (entryKey h) (map entryKey kept).
Proof.
  rewrite existsb_exists, in_map_iff. split.
  - intros [k [Hin Hk]]. apply sameEntry_key in Hk. eauto.
  - intros [k [Hk Hin]]. exists k. split; [exact Hin|].
    now apply sameEntry_key.
Qed.

Lemma seen_false h kept :
  existsb (fun k => sameEntry h k) kept = false <->
  ~ In (entryKey h) (map entryKey kept).
Proof.
  rewrite <- seen_iff. destruct (existsb _ kept); split; congruence.
Qed.

Lemma findIndex_bounds {A : Type} (p : A -> bool) l :
  if existsb p l
  then 0 <= Js.findIndex p l < Z.of_nat (List.length l)
  else Js.findIndex p l = -1.
Proof.
  induction l as [|a l IH]; [reflexivity|].
  cbn [existsb Js.findIndex List.length]. destruct (p a); cbn [orb]; [lia|].
  destruct (existsb p l).
  - destruct (Js.findIndex p l =? -1) eqn:E; [apply Z.eqb_eq in E|]; lia.
  - now rewrite IH.
Qed.

Lemma findIndex_app {A : Type} (p : A -> bool) pre a rest :
  p a = true ->
  (Z.of_nat (List.length pre) =? Js.findIndex p (pre ++ a :: rest))
  = negb (existsb p pre).
Proof.
  intros Ha. induction pre as [|b pre IH].
  - simpl. now rewrite Ha.
  - cbn [app existsb Js.findIndex List.length]. destruct (p b); cbn [orb negb].
    + apply Z.eqb_neq. lia.
    + assert (Hb := findIndex_bounds p (pre ++ a :: rest)).
      rewrite existsb_app in Hb. cbn [existsb] in Hb.
      rewrite Ha, orb_true_r in Hb.
      destruct (Js.findIndex p (pre ++ a :: rest) =? -1) eqn:E;
        [apply Z.eqb_eq in E; lia|].
      rewrite <- IH.
      destruct (Z.of_nat (List.length pre) =? _) eqn:E1.
      * apply Z.eqb_eq in E1. apply Z.eqb_eq. lia.
      * apply Z.eqb_neq in E1. apply Z.eqb_neq. lia.
Qed.

(** The index filter of the code drops exactly the headings whose pair
    was seen before. *)
Lemma removeDuplicates_from all :
  forall rest pre kept,
    all = pre ++ rest ->
    (forall h, In (entryKey h) (map entryKey kept) <->
               In (entryKey h) (map entryKey pre)) ->
    Js.filteri_from (Z.of_nat (List.length pre))
      (fun heading index => index =? Js.findIndex (sameEntry heading) all) rest
    = dropRepeated kept rest.
Proof.
  induction rest as [|h rest IH]; intros pre kept Hall Hkept; [reflexivity|].
  cbn [Js.filteri_from dropRepeated]. subst all.
  rewrite findIndex_app by (now apply sameEntry_key).
  assert (Hnext : Z.of_nat (List.length pre) + 1
                  = Z.of_nat (List.length (pre ++ [h])))
    by (rewrite length_app; simpl; lia).
  rewrite Hnext.
  destruct (existsb (sameEntry h) kept) eqn:Ek.
  - assert (Ep : existsb (sameEntry h) pre = true)
      by (apply seen_iff, Hkept, seen_iff, Ek).
    rewrite Ep. cbn [negb]. apply IH.
    + now rewrite <- app_assoc.
    + intros h'. rewrite Hkept, map_app, in_app_iff. cbn [map In].
      split; [tauto|]. intros [H|[H|[]]]; [exact H|].
      rewrite <- H. now apply seen_iff.
  - assert (Ep : existsb (sameEntry h) pre = false).
    { apply seen_false. rewrite <- Hkept. now apply seen_false. }
    rewrite Ep. cbn [negb]. f_equal. apply IH.
    + now rewrite <- app_assoc.
    + intros h'. rewrite !map_app, !in_app_iff, Hkept. reflexivity.
Qed.

Lemma removeDuplicates_spec outline :
  removeDuplicates outline = dropRepeated [] outline.
Proof.
  unfold removeDuplicates, Js.filteri.
  apply (removeDuplicates_from outline [] []); [reflexivity | tauto].
Qed.

Lemma dropRepeated_subsequence rest :
  forall kept, subsequence (dropRepeated kept rest) rest.
Proof.
  induction rest as [|h rest IH]; intros kept; simpl; [constructor|].
  destruct (existsb _ kept); constructor; apply IH.
Qed.

(** The kept headings are exactly the first occurrences of their pair. *)
Lemma dropRepeated_first rest :
  forall kept h,
    In h (dropRepeated kept rest) <->
    exists l1 l2, rest = l1 ++ h :: l2 /\
                  ~ In (entryKey h) (map entryKey (kept ++ l1)).
Proof.
  induction rest as [|a rest IH]; intros kept h; cbn [dropRepeated].
  - split; [intros [] | intros [[|? ?] [? [? _]]]; discriminate].
  - destruct (existsb (fun k => sameEntry a k) kept) eqn:Ea.
    + apply seen_iff in Ea. rewrite IH. split.
      * intros [l1 [l2 [-> Hnew]]]. exists (a :: l1), l2. split; [reflexivity|].
        rewrite map_app, in_app_iff in *. cbn [map In].
        intros [H|[H|H]]; [tauto | | tauto].
        apply Hnew. left. now rewrite <- H.
      * intros [[|b l1] [l2 [Heq Hnew]]]; injection Heq as -> ->.
        -- rewrite app_nil_r in Hnew. contradiction.
        -- exists l1, l2. split; [reflexivity|].
           rewrite map_app, in_app_iff in *. cbn [map In] in Hnew. tauto.
    + apply seen_false in Ea. cbn [In]. rewrite IH. split.
      * intros [<-|[l1 [l2 [-> Hnew]]]].
        -- exists [], rest. split; [reflexivity | now rewrite app_nil_r].
        -- exists (a :: l1), l2. split; [reflexivity|].
           now rewrite <- app_assoc in Hnew.
      * intros [[|b l1] [l2 [Heq Hnew]]]; injection Heq as -> ->.
        -- now left.
        -- right. exists l1, l2. split; [reflexivity|].
           now rewrite <- app_assoc.
Qed.

Lemma dropRepeated_NoDup rest :
  forall kept, NoDup (map entryKey (dropRepeated kept rest)).
Proof.
  induction rest as [|a rest IH]; intros kept; cbn [dropRepeated].
  - constructor.
  - destruct (existsb _ kept); [apply IH|].
    cbn [map]. constructor; [|apply IH].
    rewrite in_map_iff. intros [h [Hkey Hin]].
    apply dropRepeated_first in Hin as [l1 [l2 [_ Hnew]]].
    apply Hnew. rewrite !map_app, !in_app_iff. cbn [map In].
    left. right. left. now symmetry.
Qed.

(** Every pair of the input survives. *)
Lemma dropRepeated_complete rest :
  forall kept c,
    In c rest ->
    In (entryKey c) (map entryKey kept) \/
    exists h, In h (dropRepeated kept rest) /\ entryKey h = entryKey c.
Proof.
  induction rest as [|a rest IH]; intros kept c; cbn [dropRepeated In]; [tauto|].
  destruct (existsb (fun k => sameEntry a k) kept) eqn:Ea.
  - apply seen_iff in Ea. intros [<-|Hc]; [now left | now apply IH].
  - intros [<-|Hc].
    + right. exists a. split; [now left | reflexivity].
    + destruct (IH (kept ++ [a]) c Hc) as [H|[h [Hin Hkey]]].
      * rewrite map_app, in_app_iff in H. cbn [map In] in H.
        destruct H as [H|[H|[]]]; [now left|].
        right. exists a. split; [now left | exact H].
      * right. exists h. split; [now right | exact Hkey].
Qed.

Lemma classifyLine_Some titleText headingSizes line heading :
  classifyLine titleText headingSizes line = Some heading ->
  h_text heading = text line /\ h_page heading = page line /\
  getHeadingLevel headingSizes (height line) = Some (level heading) /\
  3 < Js.length (text line) /\
  Js.test_digits (text line) = false /\
  Js.toLowerCase (text line) <> Js.toLowerCase titleText.
Proof.
  unfold classifyLine.
  destruct (getHeadingLevel headingSizes (height line)) as [lvl|]; [|discriminate].
  destruct (3 <? Js.length (text line)) eqn:E1; [|discriminate].
  destruct (Js.test_digits (text line)) eqn:E2; [discriminate|].
  destruct (String.eqb _ _) eqn:E3; [discriminate|].
  cbn. intros [= <-]. cbn. repeat split; try reflexivity.
  - now apply Z.ltb_lt.
  - now apply String.eqb_neq.
Qed.

Lemma classifyLine_None titleText headingSizes line :
  classifyLine titleText headingSizes line = None <->
  getHeadingLevel headingSizes (height line) = None \/ excluded titleText line.
Proof.
  unfold classifyLine, excluded.
  destruct (getHeadingLevel headingSizes (height line)) as [lvl|]; [|tauto].
  destruct (3 <? Js.length (text line)) eqn:E1;
    [apply Z.ltb_lt in E1 | apply Z.ltb_ge in E1; cbn; tauto].
  destruct (Js.test_digits (text line)) eqn:E2; [cbn; tauto|].
  destruct (String.eqb _ _) eqn:E3;
    [apply String.eqb_eq in E3 | apply String.eqb_neq in E3]; cbn.
  - tauto.
  - split; [discriminate|]. intros [H|[H|[H|H]]]; try discriminate; try lia.
    contradiction.
Qed.

Lemma candidates_In titleText headingSizes lines heading :
  In heading (candidates titleText headingSizes lines) <->
  exists line, In line lines /\
               classifyLine titleText headingSizes line = Some heading.
Proof.
  induction lines as [|line lines IH]; cbn [candidates In].
  - split; [tauto | intros [? [[] _]]].
  - destruct (classifyLine titleText headingSizes line) as [h|] eqn:E.
    + cbn [In]. rewrite IH. split.
      * intros [<-|[l [Hl Hc]]]; eauto.
      * intros [l [[<-|Hl] Hc]]; [left; congruence | eauto].
    + rewrite IH. split.
      * intros [l [Hl Hc]]; eauto.
      * intros [l [[<-|Hl] Hc]]; [congruence | eauto].
Qed.

(** The candidates are the classifications of the lines, in the order
    of the lines. *)
Lemma candidates_in_order titleText headingSizes lines :
  candidates titleText headingSizes lines =
  flat_map (fun line => match classifyLine titleText headingSizes line with
                        | Some heading => [heading]
                        | None => []
                        end) lines.
Proof.
  induction lines as [|line lines IH]; cbn [candidates flat_map]; [reflexivity|].
  rewrite IH. destruct (classifyLine _ _ line); reflexivity.
Qed.

Lemma classifyHeadings_In lines titleText headingSizes heading :
  In heading (classifyHeadings lines titleText headingSizes) ->
  exists line, In line lines /\
               classifyLine titleText headingSizes line = Some heading.
Proof.
  unfold classifyHeadings. rewrite removeDuplicates_spec. intros H.
  apply dropRepeated_first in H as [l1 [l2 [Heq _]]].
  apply candidates_In. rewrite Heq. apply in_elt.
Qed.

(** C3: for a line whose rounded height occurs in [headingSizes], the
    classifier emits no heading exactly when the text has at most 3
    characters, or is a bare number, or equals the title up to case;
    otherwise it emits the heading made of the line's text, the level of
    its rank and its page, and the outline then holds a heading with that
    text and page.  A line whose text is "7", and a line equal to the
    title up to case, is never a heading, whatever its height; no heading
    of an outline has such a text. *)
Theorem heading_exclusion_rules :
  (forall (titleText : string) (headingSizes : list Z) (line : Line),
      In (roundedHeight line) headingSizes ->
      (classifyLine titleText headingSizes line = None <->
       excluded titleText line) /\
      (~ excluded titleText line ->
       exists lvl,
         getHeadingLevel headingSizes (height line) = Some lvl /\
         classifyLine titleText headingSizes line =
           Some {| h_text := text line; level := lvl; h_page := page line |} /\
         forall lines, In line lines ->
           In {| h_text := text line; level := lvl; h_page := page line |}
              (candidates titleText headingSizes lines) /\
           exists heading,
             In heading (classifyHeadings lines titleText headingSizes) /\
             h_text heading = text line /\ h_page heading = page line)) /\
  (forall (titleText : string) (headingSizes : list Z) (line : Line),
      text line = "7" \/
      Js.toLowerCase (text line) = Js.toLowerCase titleText ->
      classifyLine titleText headingSizes line = None) /\
  (forall (lines : list Line) (titleText : string) (headingSizes : list Z)
          (heading : Heading),
      In heading (classifyHeadings lines titleText headingSizes) ->
      h_text heading <> "7" /\
      Js.toLowerCase (h_text heading) <> Js.toLowerCase titleText /\
      3 < Js.length (h_text heading) /\
      Js.test_digits (h_text heading) = false).
Proof.
  split; [|split].
  - intros titleText headingSizes line Hin.
    destruct (In_isRank _ _ Hin) as [rank Hrank].
    apply getHeadingLevel_rank in Hrank.
    split.
    + rewrite classifyLine_None, Hrank. split; [|tauto].
      intros [H|H]; [discriminate | exact H].
    + intros Hnot.
      destruct (classifyLine titleText headingSizes line) as [h|] eqn:E.
      * destruct (classifyLine_Some _ _ _ E) as [Ht [Hp [Hl _]]].
        exists (level h).
        assert (Eh : h = {| h_text := text line; level := level h;
                            h_page := page line |})
          by (destruct h; cbn in *; congruence).
        rewrite <- Eh. split; [exact Hl|]. split; [reflexivity|].
        intros lines Hline.
        assert (Hc : In h (candidates titleText headingSizes lines))
          by (apply candidates_In; eauto).
        split; [exact Hc|].
        unfold classifyHeadings. rewrite removeDuplicates_spec.
        destruct (dropRepeated_complete _ [] h Hc) as [[]|[k [Hk Hkey]]].
        exists k. split; [exact Hk|].
        unfold entryKey in Hkey. injection Hkey as H1 H2.
        split; congruence.
      * apply classifyLine_None in E. rewrite Hrank in E.
        destruct E as [E|E]; [discriminate | contradiction].
  - intros titleText headingSizes line H.
    apply classifyLine_None. right. unfold excluded.
    destruct H as [H|H]; [|tauto].
    rewrite H. right. left. reflexivity.
  - intros lines titleText headingSizes heading H.
    apply classifyHeadings_In in H as [line [_ H]].
    apply classifyLine_Some in H as [Ht [_ [_ [H3 [Hd Hn]]]]].
    rewrite Ht. repeat split; try assumption.
    intros H7. rewrite H7 in Hd. discriminate.
Qed.

Lemma heading_exclusion_rules_witness :
  classifyLine "Annual Report" [22; 18]
    {| text := "7"; x := 300; y := 40; height := 18;
       fontName := "g_d0_f1"; page := 2 |} = None.
Proof.
  pose (line := {| text := "7"; x := 300; y := 40; height := 18;
                   fontName := "g_d0_f1"; page := 2 |}).
  assert (Hin : In (roundedHeight line) [22; 18])
    by (right; left; reflexivity).
  apply (proj1 (proj1 heading_exclusion_rules "Annual Report" [22; 18] line Hin)).
  right. left. reflexivity.
Defined.

(** ** Document order of the collected lines *)

Lemma lineOfGroup_page pageNumber entry line :
  lineOfGroup pageNumber entry = Ok line -> page line = pageNumber.
Proof.
  destruct entry as [k group]. unfold lineOfGroup.
  destruct (Js.sort byX group); [discriminate|].
  intros [= <-]. reflexivity.
Qed.

Lemma getLinesFromPage_lines pageNumber items :
  exists lines,
    getLinesFromPage pageNumber items = Ok lines /\
    nonIncreasingY lines /\
    Forall (fun line => page line = pageNumber) lines /\
    (lines = [] <-> items = []).
Proof.
  destruct (getLinesFromPage_ok pageNumber items) as [unsorted [H HF]].
  exists (Js.sort byYDesc unsorted). split; [exact H|].
  split; [apply sort_byYDesc_nonIncreasing|]. split.
  - apply Forall_forall. intros line Hin. apply JsFacts.sort_In in Hin.
    destruct (Forall2_In_r _ HF Hin) as [entry [_ He]].
    now apply lineOfGroup_page in He.
  - split.
    + intros Hnil. apply JsFacts.sort_nil_inv in Hnil. subst unsorted.
      destruct items as [|item items]; [reflexivity|]. exfalso.
      assert (Hin : In (lineKey item, itemsAt (lineKey item) (item :: items))
                       (Js.entries (groupItems (item :: items)))).
      { apply groupItems_entry. split; [reflexivity|].
        apply itemsAt_nonempty. exists item. split; [now left | reflexivity]. }
      destruct (Forall2_In_l _ HF Hin) as [line [[] _]].
    + intros ->. cbn in H. injection H as H. now rewrite <- H.
Qed.

Lemma StronglySorted_app {A : Type} (R : A -> A -> Prop) l1 l2 :
  StronglySorted R l1 -> StronglySorted R l2 ->
  (forall a b, In a l1 -> In b l2 -> R a b) ->
  StronglySorted R (l1 ++ l2).
Proof.
  induction 1 as [|a l1 Hs IH Ha]; intros H2 Hab; [exact H2|].
  cbn. constructor.
  - apply IH; [exact H2|]. intros; apply Hab; [now right | assumption].
  - apply Forall_app. split; [exact Ha|].
    apply Forall_forall. intros b Hb. apply Hab; [now left | exact Hb].
Qed.

Lemma page_inDocumentOrder pageNumber lines :
  nonIncreasingY lines ->
  Forall (fun line => page line = pageNumber) lines ->
  StronglySorted inDocumentOrder lines.
Proof.
  induction 1 as [|a l Hsl IHl Ha]; intros Hpg; constructor.
  - apply IHl. now inversion Hpg.
  - rewrite Forall_forall in *. intros b Hb. right.
    split; [|now apply Ha].
    rewrite (Hpg a), (Hpg b); [reflexivity | now right | now left].
Qed.

(** The loop over the pages never throws; it appends, page after page,
    the lines of each page from top to bottom. *)
Lemma collectLines_spec pages :
  forall i allLines,
  exists more,
    collectLines i pages allLines = Ok (allLines ++ more) /\
    StronglySorted inDocumentOrder more /\
    Forall (fun line => i <= page line) more /\
    (more = [] <-> Forall (fun items => items = []) pages).
Proof.
  induction pages as [|items pages IH]; intros i allLines.
  - exists []. cbn. rewrite app_nil_r.
    repeat split; auto; constructor.
  - destruct (getLinesFromPage_lines i items) as [pageLines [Hp [Hy [Hpg He]]]].
    destruct (IH (i + 1) (allLines ++ pageLines)) as [more [Hm [Hs [Hge Hempty]]]].
    exists (pageLines ++ more). cbn [collectLines]. rewrite Hp. cbn [bind].
    rewrite Hm, app_assoc. split; [reflexivity|].
    rewrite Forall_forall in Hpg, Hge. split; [|split].
    + apply StronglySorted_app; [| exact Hs |].
      * apply (@page_inDocumentOrder i _ Hy). now apply Forall_forall.
      * intros a b Ha Hb. left. rewrite (Hpg a Ha).
        specialize (Hge b Hb). lia.
    + apply Forall_forall. intros line Hin. apply in_app_iff in Hin as [H|H].
      * rewrite (Hpg line H). lia.
      * specialize (Hge line H). lia.
    + split.
      * intros H. apply app_eq_nil in H as [H1 H2].
        constructor; [now apply He | now apply Hempty].
      * intros H. inversion H as [|? ? H1 H2]; subst.
        rewrite (proj2 He eq_refl), (proj2 Hempty H2). reflexivity.
Qed.

Lemma extractOutlineFromPdf_spec pdf :
  exists allLines,
    collectLines 1 pdf [] = Ok allLines /\
    StronglySorted inDocumentOrder allLines /\
    (allLines = [] <-> Forall (fun items => items = []) pdf) /\
    extractOutlineFromPdf pdf =
      match allLines with
      | [] => Throw EmptyExtraction
      | _ =>
          Ok {| title := titleOf allLines;
                outline := classifyHeadings allLines (titleOf allLines)
                             (headingSizes (getFontStatistics allLines)) |}
      end.
Proof.
  destruct (collectLines_spec pdf 1 []) as [allLines [H [Hs [_ He]]]].
  cbn [app] in H. exists allLines. repeat split; try tauto.
  unfold extractOutlineFromPdf. rewrite H. reflexivity.
Qed.

(** C4: the lines of a document are collected in document order (page
    ascending, and from top to bottom within a page) and classified in
    that order; the outline is the list of accepted headings with every
    heading removed whose (text, page) pair is that of a heading kept
    before it.  Hence no two headings of the outline share their pair,
    the outline keeps the order of the candidates, its headings are
    exactly the first occurrences of their pairs, and every pair of a
    candidate stays represented: headings with the same text on
    different pages are all kept.  In the sample document "Overview",
    drawn twice on page 2 and once on page 3, is kept once per page. *)
Theorem outline_assembly :
  (forall pdf : Pdf,
   exists allLines,
    collectLines 1 pdf [] = Ok allLines /\
    StronglySorted inDocumentOrder allLines /\
    (forall result,
        extractOutlineFromPdf pdf = Ok result ->
        outline result =
          classifyHeadings allLines (title result)
            (headingSizes (getFontStatistics allLines))) /\
    forall (lines : list Line) (titleText : string) (headingSizes : list Z),
      let accepted := candidates titleText headingSizes lines in
      let final := classifyHeadings lines titleText headingSizes in
      accepted =
        flat_map (fun line =>
                    match classifyLine titleText headingSizes line with
                    | Some heading => [heading]
                    | None => []
                    end) lines /\
      final = dropRepeated [] accepted /\
      NoDup (map entryKey final) /\
      subsequence final accepted /\
      (forall h, In h final <->
                 exists before after,
                   accepted = before ++ h :: after /\
                   ~ In (entryKey h) (map entryKey before)) /\
      (forall c, In c accepted ->
                 exists h, In h final /\ entryKey h = entryKey c) /\
      (forall c1 c2, In c1 accepted -> In c2 accepted ->
                     h_text c1 = h_text c2 -> h_page c1 <> h_page c2 ->
                     exists h1 h2,
                       In h1 final /\ In h2 final /\ h1 <> h2 /\
                       entryKey h1 = entryKey c1 /\ entryKey h2 = entryKey c2)) /\
  extractOutlineFromPdf samplePdf =
    Ok {| title := "Annual Report";
          outline := [ {| h_text := "Overview"; level := "H2"; h_page := 2 |};
                       {| h_text := "Overview"; level := "H2"; h_page := 3 |} ] |}.
Proof.
  split; [|vm_compute; reflexivity].
  intros pdf.
  destruct (extractOutlineFromPdf_spec pdf) as [allLines [H [Hs [_ Hx]]]].
  exists allLines. split; [exact H|]. split; [exact Hs|]. split.
  - intros result Hr. rewrite Hx in Hr.
    destruct allLines; [discriminate|]. injection Hr as <-. reflexivity.
  - intros lines titleText sizes accepted final.
    assert (Hfinal : final = dropRepeated [] accepted)
      by apply removeDuplicates_spec.
    assert (Hcomplete : forall c, In c accepted ->
                         exists h, In h final /\ entryKey h = entryKey c).
    { intros c Hc. rewrite Hfinal.
      destruct (dropRepeated_complete _ [] c Hc) as [[]|Hh]. exact Hh. }
    split; [apply candidates_in_order|]. split; [exact Hfinal|].
    rewrite Hfinal in *.
    split; [apply dropRepeated_NoDup|].
    split; [apply dropRepeated_subsequence|].
    split; [intros h; apply dropRepeated_first|].
    split; [exact Hcomplete|].
    intros c1 c2 H1 H2 Ht Hp.
    destruct (Hcomplete c1 H1) as [h1 [Hh1 Hk1]].
    destruct (Hcomplete c2 H2) as [h2 [Hh2 Hk2]].
    exists h1, h2. repeat split; try assumption.
    intros ->. rewrite Hk1 in Hk2. apply Hp.
    unfold entryKey in Hk2. congruence.
Qed.

(* ================================================================== *)
(** * The Font Profiler *)
(* ================================================================== *)

Lemma qualifies_iff line :
  qualifies line = true <->
  ~ (height line == 0)%Q /\ 2 < Js.length (text line).
Proof.
  unfold qualifies. rewrite andb_true_iff, negb_true_iff, Z.ltb_lt.
  destruct (Qeq_bool (height line) 0) eqn:E.
  - apply Qeq_bool_iff in E. split; [intros [? _]; discriminate | tauto].
  - apply Qeq_bool_neq in E. tauto.
Qed.

Lemma bucketTotal_app lines1 lines2 h :
  bucketTotal (lines1 ++ lines2) h = bucketTotal lines1 h + bucketTotal lines2 h.
Proof.
  induction lines1 as [|line lines1 IH]; cbn [app bucketTotal]; [reflexivity|].
  rewrite IH. lia.
Qed.

Lemma bucketTotal_none lines h :
  existsb (countsAt h) lines = false -> bucketTotal lines h = 0.
Proof.
  induction lines as [|line lines IH]; cbn [existsb bucketTotal]; [reflexivity|].
  intros H. apply orb_false_iff in H as [H1 H2]. rewrite H1, IH by exact H2.
  reflexivity.
Qed.

Lemma bucketTotal_some lines h :
  existsb (countsAt h) lines = true -> 2 < bucketTotal lines h.
Proof.
  assert (Hnn : forall l, 0 <= bucketTotal l h).
  { induction l as [|a l IH]; cbn [bucketTotal]; [lia|].
    destruct (countsAt h a); [|lia]. unfold Js.length. lia. }
  induction lines as [|line lines IH]; cbn [existsb bucketTotal]; [discriminate|].
  destruct (countsAt h line) eqn:E; cbn [orb].
  - intros _. unfold countsAt in E. apply andb_true_iff in E as [E _].
    apply qualifies_iff in E. specialize (Hnn lines). lia.
  - intros H. specialize (IH H). lia.
Qed.

Lemma hasBucket_iff lines h :
  hasBucket lines h <-> existsb (countsAt h) lines = true.
Proof.
  unfold hasBucket, countsAt. rewrite existsb_exists.
  split; intros [line [H1 H2]]; exists line.
  - destruct H2 as [H2 H3]. split; [exact H1|].
    apply andb_true_iff. split; [exact H2 | now apply Z.eqb_eq].
  - apply andb_true_iff in H2 as [H2 H3]. apply Z.eqb_eq in H3. auto.
Qed.

Lemma fontStatsOf_snoc lines line :
  fontStatsOf (lines ++ [line]) = addLine (fontStatsOf lines) line.
Proof. unfold fontStatsOf. rewrite fold_left_app. reflexivity. Qed.

(** What [fontStats] holds after the [forEach]. *)
Lemma fontStatsOf_spec lines :
  NoDup (map fst (fontStatsOf lines)) /\
  forall h, Js.get (fontStatsOf lines) h =
            if existsb (countsAt h) lines then Some (bucketTotal lines h)
            else None.
Proof.
  induction lines as [|line lines [IHnd IHget]] using rev_ind.
  - split; [constructor | reflexivity].
  - rewrite fontStatsOf_snoc. unfold addLine.
    destruct (qualifies line) eqn:Eq.
    + split; [now apply JsFacts.NoDup_keys_set|].
      intros h. rewrite JsFacts.get_set. fold (roundedHeight line).
      assert (Ec : countsAt h line = (roundedHeight line =? h))
        by (unfold countsAt; now rewrite Eq).
      rewrite existsb_app, bucketTotal_app. cbn [existsb bucketTotal].
      rewrite Ec, orb_false_r.
      destruct (roundedHeight line =? h) eqn:Eh.
      * apply Z.eqb_eq in Eh. subst h. rewrite orb_true_r, IHget.
        destruct (existsb (countsAt (roundedHeight line)) lines) eqn:Ex.
        -- f_equal. lia.
        -- rewrite (bucketTotal_none _ _ Ex). f_equal. lia.
      * rewrite orb_false_r, IHget. cbn [Z.add]. now rewrite Z.add_0_r.
    + split; [exact IHnd|].
      intros h.
      assert (Ec : countsAt h line = false)
        by (unfold countsAt; now rewrite Eq).
      rewrite IHget, existsb_app, bucketTotal_app.
      cbn [existsb bucketTotal]. rewrite Ec.
      cbn [orb Z.add]. now rewrite orb_false_r, Z.add_0_r.
Qed.

Lemma fontStatsOf_entry lines h count :
  In (h, count) (fontStatsOf lines) <->
  hasBucket lines h /\ count = bucketTotal lines h.
Proof.
  destruct (fontStatsOf_spec lines) as [Hnd Hget].
  rewrite hasBucket_iff. split.
  - intros H. apply (JsFacts.In_get _ _ _ Hnd) in H. rewrite Hget in H.
    destruct (existsb (countsAt h) lines); [|discriminate].
    injection H as <-. auto.
  - intros [H ->]. apply JsFacts.get_In. now rewrite Hget, H.
Qed.

Lemma byCountDesc_asym a b : byCountDesc a b = true -> byCountDesc b a = false.
Proof. unfold byCountDesc. rewrite Z.ltb_lt, Z.ltb_ge. lia. Qed.

Lemma byCountDesc_trans a b c :
  byCountDesc a b = false -> byCountDesc b c = false -> byCountDesc a c = false.
Proof. unfold byCountDesc. rewrite !Z.ltb_ge. lia. Qed.

Lemma bySizeDesc_asym a b : bySizeDesc a b = true -> bySizeDesc b a = false.
Proof. unfold bySizeDesc. rewrite Z.ltb_lt, Z.ltb_ge. lia. Qed.

Lemma bySizeDesc_trans a b c :
  bySizeDesc a b = false -> bySizeDesc b c = false -> bySizeDesc a c = false.
Proof. unfold bySizeDesc. rewrite !Z.ltb_ge. lia. Qed.

(** The ranked bucket heights: the heights that have a bucket, each
    once, a largest bucket first. *)
Lemma sortedFontsOf_spec lines :
  NoDup (sortedFontsOf lines) /\
  (forall h, In h (sortedFontsOf lines) <-> hasBucket lines h) /\
  (forall top others, sortedFontsOf lines = top :: others ->
     forall h, bucketTotal lines h <= bucketTotal lines top).
Proof.
  unfold sortedFontsOf.
  set (ranked := Js.sort byCountDesc (Js.entries (fontStatsOf lines))).
  assert (Hperm : Permutation ranked (fontStatsOf lines)).
  { etransitivity; [apply JsFacts.sort_perm | apply JsFacts.entries_perm]. }
  assert (Hin : forall h, In h (map fst ranked) <-> hasBucket lines h).
  { intros h. rewrite in_map_iff. split.
    - intros [[h' c] [<- H]]. apply (Permutation_in _ Hperm) in H.
      now apply fontStatsOf_entry in H.
    - intros H. exists (h, bucketTotal lines h). split; [reflexivity|].
      apply (Permutation_in _ (Permutation_sym Hperm)).
      now apply fontStatsOf_entry. }
  split; [|split; [exact Hin|]].
  - apply (Permutation_NoDup (l := map fst (fontStatsOf lines))).
    + now apply Permutation_map, Permutation_sym.
    + apply fontStatsOf_spec.
  - intros top others Htop h.
    assert (Hs := JsFacts.sort_sorted byCountDesc_asym byCountDesc_trans
                    (Js.entries (fontStatsOf lines))).
    fold ranked in Hs.
    assert (Htop' : hasBucket lines top) by (apply Hin; rewrite Htop; now left).
    destruct (existsb (countsAt h) lines) eqn:Eh.
    + destruct ranked as [|[k c] rest]; [discriminate|].
      cbn in Htop. injection Htop as -> _.
      assert (Hk : In (top, c) (fontStatsOf lines))
        by (apply (Permutation_in _ Hperm); now left).
      apply fontStatsOf_entry in Hk as [_ ->].
      assert (Hh : In (h, bucketTotal lines h) ((top, bucketTotal lines top) :: rest)).
      { apply (Permutation_in _ (Permutation_sym Hperm)).
        apply fontStatsOf_entry. split; [now apply hasBucket_iff | reflexivity]. }
      destruct Hh as [Hh|Hh]; [injection Hh as -> _; lia|].
      inversion Hs as [|? ? _ Hall]; subst.
      rewrite Forall_forall in Hall. specialize (Hall _ Hh).
      unfold Js.before, byCountDesc in Hall. cbn in Hall.
      apply Z.ltb_ge in Hall. exact Hall.
    + rewrite (bucketTotal_none _ _ Eh).
      apply hasBucket_iff, bucketTotal_some in Htop'. lia.
Qed.

Lemma sortedFontsOf_nil lines :
  sortedFontsOf lines = [] <->
  forall line, In line lines -> qualifies line = false.
Proof.
  destruct (sortedFontsOf_spec lines) as [_ [Hin _]]. split.
  - intros Hnil line Hline. destruct (qualifies line) eqn:E; [|reflexivity].
    assert (H : In (roundedHeight line) (sortedFontsOf lines))
      by (apply Hin; exists line; auto).
    rewrite Hnil in H. destruct H.
  - intros Hnone. destruct (sortedFontsOf lines) as [|h l]; [reflexivity|].
    destruct (proj1 (Hin h) (or_introl eq_refl)) as [line [H1 [H2 _]]].
    rewrite (Hnone line H1) in H2. discriminate.
Qed.

Lemma strictly_descending sizes :
  StronglySorted (Js.before bySizeDesc) sizes -> NoDup sizes ->
  StronglySorted (fun a b => b < a) sizes.
Proof.
  induction 1 as [|a l Hs IH Ha]; intros Hnd; constructor;
    inversion Hnd as [|? ? Hnotin Hnd']; subst.
  - now apply IH.
  - rewrite Forall_forall in *. intros b Hb.
    specialize (Ha b Hb). unfold Js.before, bySizeDesc in Ha.
    apply Z.ltb_ge in Ha.
    assert (a <> b) by (intros ->; contradiction). lia.
Qed.

Lemma singleton_list (a : Z) l :
  NoDup l -> (forall h, In h l <-> h = a) -> l = [a].
Proof.
  intros Hnd Hin. destruct l as [|b l].
  - destruct (proj2 (Hin a) eq_refl).
  - assert (b = a) by (apply Hin; now left). subst b.
    destruct l as [|c l]; [reflexivity|]. exfalso.
    inversion Hnd as [|? ? Hnotin _]; subst. apply Hnotin.
    assert (c = a) by (apply Hin; right; now left). subst c. now left.
Qed.

Lemma headingSizes_spec lines :
  let stats := getFontStatistics lines in
  (forall h, In h (headingSizes stats) <->
             hasBucket lines h /\ bodySize stats < h) /\
  StronglySorted (fun a b => b < a) (headingSizes stats).
Proof.
  destruct (sortedFontsOf_spec lines) as [Hnd [Hin _]].
  cbn. set (body := match sortedFontsOf lines with
                    | [] => 12
                    | size :: _ => if size =? 0 then 12 else size
                    end).
  split.
  - intros h. rewrite JsFacts.sort_In, filter_In, Hin, Z.ltb_lt. reflexivity.
  - apply strictly_descending.
    + apply JsFacts.sort_sorted; [apply bySizeDesc_asym | apply bySizeDesc_trans].
    + apply (Permutation_NoDup (Permutation_sym (JsFacts.sort_perm _ _))).
      now apply NoDup_filter.
Qed.

(** C1, as the code has it: the Font Profiler accumulates the text length
    of a line into the bucket of its rounded height exactly when the
    height is non-zero and the text is longer than 2 characters.  With no
    such line [bodySize] is 12; otherwise there is a bucket with the
    largest accumulated length, the first in the ranking, and its height,
    when it is not 0, is [bodySize].  [headingSizes] holds exactly the
    bucket heights strictly greater than [bodySize], in strictly
    descending order.  With 500 characters in all at height 12, 40 at
    height 18 and no other bucket, [bodySize] is 12 and [headingSizes]
    is [18]. *)
Theorem font_profile :
  forall lines : list Line,
    let stats := getFontStatistics lines in
    (forall line, qualifies line = true <->
                  ~ (height line == 0)%Q /\ 2 < Js.length (text line)) /\
    (forall h, (hasBucket lines h ->
                Js.get (fontStatsOf lines) h = Some (bucketTotal lines h)) /\
               (~ hasBucket lines h -> Js.get (fontStatsOf lines) h = None)) /\
    ((forall line, In line lines -> qualifies line = false) ->
     bodySize stats = 12) /\
    ((exists line, In line lines /\ qualifies line = true) ->
     exists top others,
       sortedFontsOf lines = top :: others /\
       hasBucket lines top /\
       (forall h, bucketTotal lines h <= bucketTotal lines top) /\
       (top <> 0 -> bodySize stats = top)) /\
    (forall h, In h (headingSizes stats) <->
               hasBucket lines h /\ bodySize stats < h) /\
    StronglySorted (fun a b => b < a) (headingSizes stats) /\
    (bucketTotal lines 12 = 500 -> bucketTotal lines 18 = 40 ->
     (forall h, hasBucket lines h -> h = 12 \/ h = 18) ->
     bodySize stats = 12 /\ headingSizes stats = [18]).
Proof.
  intros lines stats.
  destruct (sortedFontsOf_spec lines) as [Hnd [Hin Htop]].
  destruct (headingSizes_spec lines) as [Hhs Hsorted]. fold stats in Hhs, Hsorted.
  assert (Hbody : forall top others,
             sortedFontsOf lines = top :: others ->
             bodySize stats = (if top =? 0 then 12 else top)).
  { intros top others H. unfold stats. cbn. now rewrite H. }
  split; [exact qualifies_iff|].
  split; [|split; [|split; [|split; [exact Hhs|split; [exact Hsorted|]]]]].
  - intros h. destruct (fontStatsOf_spec lines) as [_ Hget].
    rewrite Hget, hasBucket_iff.
    destruct (existsb (countsAt h) lines); split; congruence.
  - intros Hnone. apply sortedFontsOf_nil in Hnone.
    unfold stats. cbn. now rewrite Hnone.
  - intros [line [Hl Hq]].
    destruct (sortedFontsOf lines) as [|top others] eqn:E.
    + rewrite (proj1 (sortedFontsOf_nil lines) E line Hl) in Hq. discriminate.
    + exists top, others. split; [reflexivity|].
      split; [apply Hin; now left|].
      split; [now apply Htop with others|].
      intros Hne. rewrite (Hbody top others eq_refl).
      apply Z.eqb_neq in Hne. now rewrite Hne.
  - intros H12 H18 Honly.
    assert (B12 : hasBucket lines 12).
    { apply hasBucket_iff. destruct (existsb (countsAt 12) lines) eqn:E; [reflexivity|].
      rewrite (bucketTotal_none _ _ E) in H12. discriminate. }
    assert (B18 : hasBucket lines 18).
    { apply hasBucket_iff. destruct (existsb (countsAt 18) lines) eqn:E; [reflexivity|].
      rewrite (bucketTotal_none _ _ E) in H18. discriminate. }
    destruct (sortedFontsOf lines) as [|top others] eqn:E;
      [apply Hin in B12; destruct B12|].
    assert (Etop : top = 12).
    { destruct (Honly top) as [->| ->]; [apply Hin; now left | reflexivity |].
      specialize (Htop 18 others eq_refl 12). lia. }
    assert (Eb : bodySize stats = 12)
      by (rewrite (Hbody top others eq_refl), Etop; reflexivity).
    split; [exact Eb|].
    apply singleton_list.
    + clear -Hsorted. induction Hsorted as [|a l Hs IH Ha]; constructor; [|exact IH].
      rewrite Forall_forall in Ha. intros Hc. specialize (Ha a Hc). lia.
    + intros h. rewrite Hhs, Eb. split.
      * intros [Hb Hlt]. destruct (Honly h Hb); lia.
      * intros ->. split; [exact B18 | lia].
Qed.

Lemma font_profile_witness :
  bodySize (getFontStatistics bodyAndHeading) = 12 /\
  headingSizes (getFontStatistics bodyAndHeading) = [18].
Proof.
  apply (proj2 (proj2 (proj2 (proj2 (proj2 (proj2
           (font_profile bodyAndHeading))))))).
  - vm_compute. reflexivity.
  - vm_compute. reflexivity.
  - intros h [line [Hin [_ <-]]].
    destruct Hin as [<-|[<-|[<-|[]]]]; vm_compute; auto.
Defined.

(** The claim as the specification words it fails where a height is 0
    or rounds to 0: three characters at the glyph height 0.4 form the
    only and so the largest bucket, at 0, and [bodySize] is 12; three
    characters at the glyph height 0 form no bucket at all. *)
Lemma font_profile_counterexample :
  (fontStatsOf tinyLines = [(0, 3)] /\
   bodySize (getFontStatistics tinyLines) = 12 /\
   ~ claimedFontProfile tinyLines) /\
  (fontStatsOf flatLines = [] /\
   claimedTotal flatLines 0 = 3 /\
   ~ claimedFontProfile flatLines).
Proof.
  split; (split; [reflexivity|]); (split; [reflexivity|]).
  - intros [_ [_ [H _]]].
    destruct H as [H _]; [exists 0; vm_compute; reflexivity|].
    vm_compute in H. discriminate.
  - intros [H _]. specialize (H 0). vm_compute in H. discriminate.
Qed.

(* ================================================================== *)
(** * The Title Extractor *)
(* ================================================================== *)

Lemma Math_max_spec heights :
  heights <> [] ->
  exists m, Js.Math_max heights = Js.Finite m /\
            In m heights /\ forall h, In h heights -> (h <= m)%Q.
Proof.
  induction heights as [|h heights IH]; [contradiction|]. intros _.
  cbn [Js.Math_max]. destruct heights as [|h' heights'].
  - exists h. cbn. split; [reflexivity|]. split; [now left|].
    intros ? [<-|[]]. apply Qle_refl.
  - destruct IH as [m [Hm [Hin Hle]]]; [discriminate|].
    rewrite Hm. destruct (Qle_bool m h) eqn:E.
    + apply Qle_bool_iff in E. exists h. split; [reflexivity|].
      split; [now left|].
      intros k [<-|Hk]; [apply Qle_refl|].
      apply Qle_trans with m; auto.
    + exists m. split; [reflexivity|]. split; [now right|].
      intros k [<-|Hk]; [|auto].
      apply Qlt_le_weak, Qnot_le_lt. intros H.
      apply Qle_bool_iff in H. congruence.
Qed.

Lemma nearMax_iff m line :
  nearMax m line = true <-> (Qabs (height line - m) < 1)%Q.
Proof. unfold nearMax. apply JsFacts.Qltb_true. Qed.

Lemma nearMaxInDoubles_iff m line :
  nearMaxInDoubles m line = true <->
  (Qabs (height line - m) < 1 - (1 # 18014398509481984))%Q.
Proof. unfold nearMaxInDoubles, Js.roundsBelowOne. apply JsFacts.Qltb_true. Qed.

(** The title block in one pass: the selected lines are filtered from
    the lines of pages 1 and 2 and sorted once. *)
Lemma titleOf_spec allLines :
  titleOf allLines =
  Js.join " "
    (map text
       (Js.sort byYDesc
          (filter (fun line =>
                     Js.abs_diff_lt_1 (height line)
                       (Js.Math_max
                          (map height (Js.sort byYDesc (firstPages allLines)))))
                  (firstPages allLines)))).
Proof.
  unfold titleOf. fold (firstPages allLines).
  rewrite (JsFacts.filter_sort byYDesc_asym byYDesc_trans).
  rewrite (JsFacts.sort_idempotent byYDesc_asym byYDesc_trans).
  reflexivity.
Qed.

(** C6, as the code has it: when pages 1 and 2 hold at least one line,
    the title is made of exactly the lines of these pages whose height
    differs from the maximum height among them by less than 1 - 2^-54,
    which are the lines for which the difference, rounded to a double,
    is strictly below 1; each of them differs from the maximum by
    strictly less than 1.  They are ordered by descending [y] (stably)
    and joined with single spaces.  Lines of heights 22, 22 and 14 at
    the positions 750, 720 and 690 give the texts of the two lines of
    height 22, the higher one first, in whatever order the lines
    arrive. *)
Theorem title_assembly :
  (forall allLines : list Line,
      firstPages allLines <> [] ->
      exists (m : Q) (titleLines : list Line),
        isMaxHeight m (firstPages allLines) /\
        (forall line, nearMaxInDoubles m line = true <->
                      (Qabs (height line - m)
                       < 1 - (1 # 18014398509481984))%Q) /\
        (forall line, nearMaxInDoubles m line = true ->
                      (Qabs (height line - m) < 1)%Q) /\
        Permutation titleLines
          (filter (nearMaxInDoubles m) (firstPages allLines)) /\
        nonIncreasingY titleLines /\
        titleLines =
          Js.sort byYDesc (filter (nearMaxInDoubles m) (firstPages allLines)) /\
        titleOf allLines = Js.join " " (map text titleLines)) /\
  titleOf titleExample = "Deep Learning" /\
  titleOf (rev titleExample) = "Deep Learning".
Proof.
  split; [|split; vm_compute; reflexivity].
  intros allLines Hne.
  destruct (Math_max_spec (heights := map height (Js.sort byYDesc (firstPages allLines))))
    as [m [Hmax [Hin Hle]]].
  { intros H. apply map_eq_nil in H. apply JsFacts.sort_nil_inv in H.
    contradiction. }
  exists m, (Js.sort byYDesc (filter (nearMaxInDoubles m) (firstPages allLines))).
  split; [|split; [|split; [|split; [|split; [|split]]]]].
  - split.
    + apply in_map_iff in Hin as [line [Hh Hl]].
      apply JsFacts.sort_In in Hl. eauto.
    + intros line Hl. apply Hle, in_map, JsFacts.sort_In, Hl.
  - intros line. apply nearMaxInDoubles_iff.
  - intros line H. apply nearMaxInDoubles_iff in H.
    eapply Qlt_trans; [exact H | reflexivity].
  - apply JsFacts.sort_perm.
  - apply sort_byYDesc_nonIncreasing.
  - reflexivity.
  - rewrite titleOf_spec, Hmax. reflexivity.
Qed.

Lemma title_assembly_witness :
  exists (m : Q) (titleLines : list Line),
    isMaxHeight m (firstPages titleExample) /\
    (forall line, nearMaxInDoubles m line = true <->
                  (Qabs (height line - m)
                   < 1 - (1 # 18014398509481984))%Q) /\
    (forall line, nearMaxInDoubles m line = true ->
                  (Qabs (height line - m) < 1)%Q) /\
    Permutation titleLines
      (filter (nearMaxInDoubles m) (firstPages titleExample)) /\
    nonIncreasingY titleLines /\
    titleLines =
      Js.sort byYDesc (filter (nearMaxInDoubles m) (firstPages titleExample)) /\
    titleOf titleExample = Js.join " " (map text titleLines).
Proof.
  apply (proj1 title_assembly titleExample).
  vm_compute. discriminate.
Defined.

(** The claim as the specification words it fails where a difference
    below 1 is rounded to 1: of two lines of heights 1 and 2^-60 on
    page 1, both within 1 of the maximum, the title holds the first
    only, since 2^-60 - 1 is rounded to -1. *)
Lemma title_assembly_counterexample :
  firstPages roundingExample <> [] /\
  titleOf roundingExample = "Main" /\
  claimedTitleOf roundingExample = "Main Tiny" /\
  titleOf roundingExample <> claimedTitleOf roundingExample.
Proof.
  split; [vm_compute; discriminate|].
  split; [vm_compute; reflexivity|].
  split; [vm_compute; reflexivity|].
  vm_compute. discriminate.
Qed.

(* ================================================================== *)
(** * Failures: [extractOutlineFromPdf] and [handleExtract] *)
(* ================================================================== *)

(** C8: a document with no fragment on any page yields no line, and its
    extraction throws the empty-extraction error: no outline is
    returned, and the component state holds the error message and no
    outline. *)
Theorem empty_extraction :
  forall pdf : Pdf,
    Forall (fun items => items = []) pdf ->
    collectLines 1 pdf [] = Ok [] /\
    extractOutlineFromPdf pdf = Throw EmptyExtraction /\
    tryExtract pdf = Throw EmptyExtraction /\
    handleExtract (Some pdf) =
      {| ui_outline := None; ui_error := Some (message EmptyExtraction) |}.
Proof.
  intros pdf Hempty.
  destruct (extractOutlineFromPdf_spec pdf) as [allLines [H [_ [He Hx]]]].
  apply He in Hempty. subst allLines.
  split; [exact H|]. split; [exact Hx|].
  unfold handleExtract, tryExtract. rewrite Hx. split; reflexivity.
Qed.

Lemma empty_extraction_witness :
  collectLines 1 imageOnlyPdf [] = Ok [] /\
  extractOutlineFromPdf imageOnlyPdf = Throw EmptyExtraction /\
  tryExtract imageOnlyPdf = Throw EmptyExtraction /\
  handleExtract (Some imageOnlyPdf) =
    {| ui_outline := None; ui_error := Some (message EmptyExtraction) |}.
Proof.
  apply (@empty_extraction imageOnlyPdf).
  repeat constructor.
Defined.

(** C9: when the extraction completes with an empty title and no
    heading, the run throws the no-structure error and the component
    state holds its message and no outline; when the title is not empty
    or there is a heading, the run is not failed and the component state
    holds the outline. *)
Theorem no_structure_found :
  forall (pdf : Pdf) (result : Outline),
    extractOutlineFromPdf pdf = Ok result ->
    (title result = "" /\ outline result = [] ->
     tryExtract pdf = Throw NoStructureFound /\
     handleExtract (Some pdf) =
       {| ui_outline := None; ui_error := Some (message NoStructureFound) |}) /\
    (title result <> "" \/ outline result <> [] ->
     tryExtract pdf = Ok result /\
     handleExtract (Some pdf) =
       {| ui_outline := Some result; ui_error := None |}).
Proof.
  intros pdf result Hx. unfold handleExtract, tryExtract. rewrite Hx. cbn [bind].
  split.
  - intros [-> ->]. split; reflexivity.
  - intros H. destruct (title result) as [|c t] eqn:Et.
    + destruct (outline result) as [|h hs] eqn:Eo.
      * destruct H as [H|H]; contradiction.
      * split; reflexivity.
    + split; reflexivity.
Qed.

Lemma no_structure_found_witness :
  (tryExtract plainLatePdf = Throw NoStructureFound /\
   handleExtract (Some plainLatePdf) =
     {| ui_outline := None; ui_error := Some (message NoStructureFound) |}) /\
  (tryExtract oneWordPdf = Ok {| title := "Word"; outline := [] |} /\
   handleExtract (Some oneWordPdf) =
     {| ui_outline := Some {| title := "Word"; outline := [] |};
        ui_error := None |}).
Proof.
  split.
  - apply (proj1 (@no_structure_found plainLatePdf
                    {| title := ""; outline := [] |} eq_refl)).
    split; reflexivity.
  - apply (proj2 (@no_structure_found oneWordPdf
                    {| title := "Word"; outline := [] |} eq_refl)).
    left. discriminate.
Defined.

(** C10: when a document has lines but none on page 1 or 2, the title
    block does not throw: the maximum height over no line is -Infinity,
    the tolerance filter selects nothing, and the title is the empty
    string.  The extraction returns the empty title with the classified
    headings, so the run fails with the no-structure error exactly when
    no heading is classified. *)
Theorem late_text_title :
  forall (pdf : Pdf) (allLines : list Line),
    collectLines 1 pdf [] = Ok allLines ->
    allLines <> [] ->
    (forall line, In line allLines -> 2 < page line) ->
    let headings :=
      classifyHeadings allLines "" (headingSizes (getFontStatistics allLines)) in
    firstPages allLines = [] /\
    Js.Math_max (map height (Js.sort byYDesc (firstPages allLines)))
      = Js.NegInfinity /\
    (forall line, Js.abs_diff_lt_1 (height line) Js.NegInfinity = false) /\
    titleOf allLines = "" /\
    extractOutlineFromPdf pdf = Ok {| title := ""; outline := headings |} /\
    (headings = [] -> tryExtract pdf = Throw NoStructureFound) /\
    (headings <> [] ->
     tryExtract pdf = Ok {| title := ""; outline := headings |}).
Proof.
  intros pdf allLines Hc Hne Hlate headings.
  assert (Hfp : firstPages allLines = []).
  { unfold firstPages. clear -Hlate.
    induction allLines as [|line lines IH]; [reflexivity|].
    cbn [filter].
    replace (page line <=? 2) with false
      by (symmetry; apply Z.leb_gt, Hlate; now left).
    apply IH. intros l Hl. apply Hlate. now right. }
  assert (Ht : titleOf allLines = "").
  { rewrite titleOf_spec, Hfp. reflexivity. }
  assert (Hx : extractOutlineFromPdf pdf = Ok {| title := ""; outline := headings |}).
  { unfold extractOutlineFromPdf. rewrite Hc. cbn [bind].
    destruct allLines as [|l ls]; [contradiction|].
    unfold headings. rewrite Ht. reflexivity. }
  split; [exact Hfp|]. split; [now rewrite Hfp|].
  split; [reflexivity|]. split; [exact Ht|]. split; [exact Hx|].
  unfold tryExtract. rewrite Hx. cbn.
  split.
  - intros ->. reflexivity.
  - intros H. destruct headings; [contradiction | reflexivity].
Qed.

Lemma late_text_title_witness :
  extractOutlineFromPdf latePdf =
    Ok {| title := "";
          outline := [ {| h_text := "Appendix"; level := "H1"; h_page := 3 |} ] |}.
Proof.
  pose (allLines :=
          [ {| text := "Appendix"; x := 72; y := 760; height := 18;
               fontName := "g_d0_f1"; page := 3 |};
            {| text := "Tables and figures of the survey, in full.";
               x := 72; y := 700; height := 12;
               fontName := "g_d0_f1"; page := 3 |} ]).
  assert (Hc : collectLines 1 latePdf [] = Ok allLines) by reflexivity.
  assert (Hne : allLines <> []) by discriminate.
  assert (Hlate : forall line, In line allLines -> 2 < page line).
  { intros line [<-|[<-|[]]]; reflexivity. }
  exact (proj1 (proj2 (proj2 (proj2 (proj2
           (@late_text_title latePdf allLines Hc Hne Hlate)))))).
Defined.

(* ================================================================== *)
(** * Further properties of the Line Assembler *)
(* ================================================================== *)

From Stdlib Require Import Lqa.

Lemma trimEnd_idempotent s : Js.trimEnd (Js.trimEnd s) = Js.trimEnd s.
Proof.
  induction s as [|c s IH]; [reflexivity|].
  rewrite JsFacts.trimEnd_cons.
  destruct (Js.isWhiteSpace c && Js.allWhiteSpace s) eqn:E; [reflexivity|].
  rewrite JsFacts.trimEnd_cons, JsFacts.allWhiteSpace_trimEnd, E, IH.
  reflexivity.
Qed.

Lemma trimStart_trimEnd_trimStart s :
  Js.trimStart (Js.trimEnd (Js.trimStart s)) = Js.trimEnd (Js.trimStart s).
Proof.
  induction s as [|c s IH]; [reflexivity|].
  cbn [Js.trimStart]. destruct (Js.isWhiteSpace c) eqn:Ec; [exact IH|].
  rewrite JsFacts.trimEnd_cons, Ec. cbn [andb Js.trimStart]. now rewrite Ec.
Qed.

Lemma trim_idempotent s : Js.trim (Js.trim s) = Js.trim s.
Proof.
  unfold Js.trim. now rewrite trimStart_trimEnd_trimStart, trimEnd_idempotent.
Qed.

Lemma collapse_from_idempotent b s :
  Js.collapse_from b (Js.collapse_from b s) = Js.collapse_from b s.
Proof.
  revert b. induction s as [|c s IH]; intros b; [reflexivity|].
  cbn [Js.collapse_from]. destruct (Js.isWhiteSpace c) eqn:Ec.
  - destruct b; [apply IH|].
    cbn [Js.collapse_from].
    replace (Js.isWhiteSpace " ") with true by reflexivity.
    now rewrite IH.
  - cbn [Js.collapse_from]. now rewrite Ec, IH.
Qed.

Lemma collapse_from_spaces b s c :
  In c (chars (Js.collapse_from b s)) -> Js.isWhiteSpace c = true ->
  c = " "%char.
Proof.
  revert b. induction s as [|d s IH]; intros b; [intros []|].
  cbn [Js.collapse_from]. destruct (Js.isWhiteSpace d) eqn:Ed.
  - destruct b; [apply IH|].
    cbn. intros [<-|H]; [reflexivity | now apply IH with true].
  - cbn. intros [<-|H] Hc; [congruence | now apply IH with false].
Qed.

(** The text of a merged line is in normal form. *)
Lemma mergedLine_normal pageNumber k firstItem group :
  let t := text (mergedLine pageNumber k firstItem group) in
  Js.trim t = t /\ Js.collapse t = t /\
  forall c, In c (chars t) -> Js.isWhiteSpace c = true -> c = " "%char.
Proof.
  cbn [mergedLine text]. split; [|split].
  - rewrite JsFacts.collapse_trim. apply trim_idempotent.
  - apply collapse_from_idempotent.
  - intros c. apply collapse_from_spaces.
Qed.

Lemma getLinesFromPage_merged pageNumber items lines line :
  getLinesFromPage pageNumber items = Ok lines -> In line lines ->
  exists k first others,
    Js.sort byX (itemsAt k items) = first :: others /\
    line = mergedLine pageNumber k first (first :: others).
Proof.
  destruct (getLinesFromPage_ok pageNumber items) as [unsorted [H HF]].
  rewrite H. intros [= <-] Hin. apply JsFacts.sort_In in Hin.
  destruct (Forall2_In_r _ HF Hin) as [[k g] [He Hl]].
  apply groupItems_entry in He as [-> Hne].
  destruct (lineOfGroup_ok pageNumber k Hne) as [f [o [Hs Hl']]].
  exists k, f, o. split; [exact Hs|].
  rewrite Hl' in Hl. injection Hl as <-. now rewrite Hs.
Qed.

(** X1: the text of every assembled line is in normal form: trimming it
    or collapsing its white space again changes nothing, and its only
    white-space characters are single spaces. *)
Theorem line_text_normal :
  forall (pageNumber : Z) (items : list TextItem) (lines : list Line)
         (line : Line),
    getLinesFromPage pageNumber items = Ok lines ->
    In line lines ->
    Js.trim (text line) = text line /\
    Js.collapse (text line) = text line /\
    forall c, In c (chars (text line)) -> Js.isWhiteSpace c = true ->
              c = " "%char.
Proof.
  intros pageNumber items lines line H Hin.
  destruct (@getLinesFromPage_merged _ _ _ _ H Hin) as [k [f [o [_ ->]]]].
  apply mergedLine_normal.
Qed.

Lemma line_text_normal_witness :
  let line := {| text := "Hello World"; x := 10; y := 700; height := 20;
                 fontName := "g_d0_f1"; page := 1 |} in
  Js.trim (text line) = text line /\
  Js.collapse (text line) = text line /\
  forall c, In c (chars (text line)) -> Js.isWhiteSpace c = true ->
            c = " "%char.
Proof.
  apply (@line_text_normal 1 helloWorld _ _ eq_refl).
  left. reflexivity.
Defined.

Lemma lineOfGroup_keys pageNumber entries lines :
  Forall2 (fun entry line => lineOfGroup pageNumber entry = Ok line) entries lines ->
  map (fun line => Qfloor (y line)) lines = map fst entries.
Proof.
  induction 1 as [|[k g] l es ls H HF IH]; [reflexivity|].
  cbn [map fst]. rewrite IH, (lineOfGroup_y _ _ _ H), Qfloor_Z. reflexivity.
Qed.

Lemma groupItems_keys items k :
  In k (map fst (groupItems items)) <-> In k (map lineKey items).
Proof.
  destruct (groupItems_spec items) as [_ Hget]. split.
  - intros Hin. destruct (Js.get (groupItems items) k) eqn:E.
    + rewrite Hget in E.
      assert (Hne : itemsAt k items <> [])
        by (intros H0; rewrite H0 in E; discriminate).
      destruct (proj1 (itemsAt_nonempty k items) Hne) as [item [H1 H2]].
      apply in_map_iff. exists item. auto.
    + apply JsFacts.get_None in E. contradiction.
  - intros Hin. apply in_map_iff in Hin as [item [H2 H1]].
    destruct (Js.get (groupItems items) k) eqn:E.
    + apply JsFacts.get_In in E. apply (in_map fst) in E. exact E.
    + rewrite Hget in E.
      assert (Hne : itemsAt k items <> [])
        by (apply itemsAt_nonempty; eauto).
      destruct (itemsAt k items); [contradiction | discriminate].
Qed.

Lemma strictly_decreasing_y lines :
  nonIncreasingY lines ->
  NoDup (map (fun line => Qfloor (y line)) lines) ->
  StronglySorted (fun a b => (y b < y a)%Q) lines.
Proof.
  induction 1 as [|a l Hs IH Ha]; intros Hnd; constructor;
    inversion Hnd as [|? ? Hnotin Hnd']; subst.
  - now apply IH.
  - rewrite Forall_forall in *. intros b Hb.
    destruct (Qle_lt_or_eq _ _ (Ha b Hb)) as [Hlt|Heq]; [exact Hlt|].
    exfalso. apply Hnotin. rewrite (Qfloor_comp _ _ (Qeq_sym _ _ Heq)).
    apply (in_map (fun line => Qfloor (y line))), Hb.
Qed.

(** X2: the lines of a page stand at pairwise different heights, from
    top to bottom in strictly decreasing [y]; there are as many lines as
    the fragments have different rounded vertical origins. *)
Theorem lines_strictly_descending :
  forall (pageNumber : Z) (items : list TextItem) (lines : list Line),
    getLinesFromPage pageNumber items = Ok lines ->
    StronglySorted (fun a b => (y b < y a)%Q) lines /\
    List.length lines =
      List.length (nodup Z.eq_dec (map lineKey items)).
Proof.
  intros pageNumber items lines H.
  destruct (getLinesFromPage_ok pageNumber items) as [unsorted [H' HF]].
  rewrite H' in H. injection H as <-.
  assert (Hkeys := @lineOfGroup_keys _ _ _ HF).
  assert (Hnd : NoDup (map fst (Js.entries (groupItems items))))
    by (apply JsFacts.entries_keys_NoDup, groupItems_spec).
  split.
  - apply strictly_decreasing_y; [apply sort_byYDesc_nonIncreasing|].
    apply (Permutation_NoDup (l := map (fun line => Qfloor (y line)) unsorted)).
    + apply Permutation_map, Permutation_sym, JsFacts.sort_perm.
    + now rewrite Hkeys.
  - rewrite (Permutation_length (JsFacts.sort_perm byYDesc unsorted)).
    rewrite <- (length_map (fun line => Qfloor (y line))), Hkeys.
    apply Permutation_length, NoDup_Permutation;
      [exact Hnd | apply NoDup_nodup|].
    intros k. rewrite nodup_In, <- groupItems_keys.
    split; apply Permutation_in; apply Permutation_map;
      [apply JsFacts.entries_perm | apply Permutation_sym, JsFacts.entries_perm].
Qed.

Lemma lines_strictly_descending_witness :
  exists lines,
    getLinesFromPage 2 (nth 1 samplePdf []) = Ok lines /\
    StronglySorted (fun a b => (y b < y a)%Q) lines /\
    List.length lines = 4%nat.
Proof.
  eexists. split; [reflexivity|].
  apply (@lines_strictly_descending 2 (nth 1 samplePdf []) _ eq_refl).
Defined.

Lemma Math_round_near (v : Q) :
  (inject_Z (Js.Math_round v) - (1 # 2) <= v)%Q /\
  (v < inject_Z (Js.Math_round v) + (1 # 2))%Q.
Proof.
  unfold Js.Math_round.
  assert (H1 := Qfloor_le (v + (1 # 2))).
  assert (H2 := Qlt_floor (v + (1 # 2))).
  rewrite inject_Z_plus in H2. change (inject_Z 1) with 1%Q in H2.
  split; lra.
Qed.

(** X3: every fragment of a page lies in exactly one line, whose [y] is
    within half a unit of the fragment's vertical origin; so two
    fragments that share a line are less than one unit apart
    vertically. *)
Theorem line_tolerance :
  forall (pageNumber : Z) (items : list TextItem) (lines : list Line),
    getLinesFromPage pageNumber items = Ok lines ->
    (forall item, In item items ->
       exists line,
         linesAt (lineKey item) lines = [line] /\
         y line = inject_Z (lineKey item) /\
         (y line - (1 # 2) <= transform_5 item)%Q /\
         (transform_5 item < y line + (1 # 2))%Q) /\
    (forall a b, In a items -> In b items -> lineKey a = lineKey b ->
       (Qabs (transform_5 a - transform_5 b) < 1)%Q).
Proof.
  intros pageNumber items lines H. split.
  - intros item Hin.
    destruct (getLinesFromPage_ok pageNumber items) as [unsorted [H' HF]].
    rewrite H' in H. injection H as <-.
    assert (Hne : itemsAt (lineKey item) items <> [])
      by (apply itemsAt_nonempty; eauto).
    destruct (lineOfGroup_ok pageNumber (lineKey item) Hne)
      as [f [o [Hs Hl]]].
    exists (mergedLine pageNumber (lineKey item) f
              (Js.sort byX (itemsAt (lineKey item) items))).
    split; [|split; [reflexivity|]].
    + unfold linesAt.
      rewrite (JsFacts.filter_sort byYDesc_asym byYDesc_trans).
      fold (linesAt (lineKey item) unsorted).
      erewrite linesAt_unique; [reflexivity | exact HF | | | exact Hl].
      * apply JsFacts.entries_keys_NoDup, groupItems_spec.
      * apply groupItems_entry. auto.
    + cbn [mergedLine y]. apply Math_round_near.
  - intros a b _ _ Hab. apply Qabs_Qlt_condition.
    destruct (Math_round_near (transform_5 a)) as [A1 A2].
    destruct (Math_round_near (transform_5 b)) as [B1 B2].
    fold (lineKey a) in A1, A2. fold (lineKey b) in B1, B2.
    rewrite Hab in A1, A2. split; lra.
Qed.

Lemma line_tolerance_witness :
  (Qabs (transform_5 (nth 0 helloWorld (sampleItem "" 0 0 0))
         - transform_5 (nth 1 helloWorld (sampleItem "" 0 0 0))) < 1)%Q.
Proof.
  apply (proj2 (@line_tolerance 1 helloWorld _ eq_refl)).
  - left. reflexivity.
  - right. left. reflexivity.
  - reflexivity.
Defined.

(* ================================================================== *)
(** * Further properties of the Font Profiler *)
(* ================================================================== *)

Lemma StronglySorted_pairwise {A : Type} (R : A -> A -> Prop) l :
  (forall a b, In a l -> In b l -> R a b) -> StronglySorted R l.
Proof.
  induction l as [|a l IH]; intros H; constructor.
  - apply IH. intros; apply H; now right.
  - apply Forall_forall. intros b Hb. apply H; [now left | now right].
Qed.

Lemma StronglySorted_filter_keep {A : Type} (R : A -> A -> Prop) p l :
  StronglySorted R l -> StronglySorted R (filter p l).
Proof.
  induction 1 as [|a l Hs IH Ha]; cbn [filter]; [constructor|].
  destruct (p a); [|exact IH]. constructor; [exact IH|].
  rewrite Forall_forall in *. intros b Hb. apply filter_In in Hb as [Hb _].
  auto.
Qed.

(** The stable sort puts first, among the elements that compare equal
    to its first element, the one that came first. *)
Lemma sort_head_first {A : Type} (gtb : A -> A -> bool) (p : A -> bool)
  l top rest :
  (forall a b, gtb a b = true -> gtb b a = false) ->
  (forall a b c, Js.before gtb a b -> Js.before gtb b c -> Js.before gtb a c) ->
  (forall a b, p a = true -> p b = true -> gtb a b = false) ->
  Js.sort gtb l = top :: rest -> p top = true ->
  filter p l = top :: filter p rest.
Proof.
  intros Hasym Htrans Hp Hsort Htop.
  assert (H := JsFacts.filter_sort Hasym Htrans p l).
  rewrite Hsort in H. cbn [filter] in H. rewrite Htop in H.
  rewrite H. symmetry. apply (JsFacts.sort_of_sorted (gtb := gtb)).
  apply StronglySorted_pairwise. intros a b Ha Hb.
  apply filter_In in Ha as [_ Ha]. apply filter_In in Hb as [_ Hb].
  now apply Hp.
Qed.

(** X4: among the buckets that tie with the first-ranked one, the bucket
    of the smallest height wins, as far as heights from 0 to 2^32 - 2
    go: if a bucket of such a height holds as many characters as the
    first-ranked bucket, the first-ranked height is of that kind too and
    is not larger. *)
Theorem largest_bucket_tie :
  forall (lines : list Line) (top : Z) (others : list Z) (h : Z),
    sortedFontsOf lines = top :: others ->
    hasBucket lines h ->
    bucketTotal lines h = bucketTotal lines top ->
    Js.isArrayIndex h = true ->
    Js.isArrayIndex top = true /\ top <= h.
Proof.
  intros lines top others h Hsorted Hh Htie Hidx.
  unfold sortedFontsOf in Hsorted.
  destruct (Js.sort byCountDesc (Js.entries (fontStatsOf lines)))
    as [|[top' c] rest] eqn:Es; [discriminate|].
  cbn in Hsorted. injection Hsorted as -> _.
  assert (Hc : c = bucketTotal lines top).
  { assert (Hin : In (top, c) (fontStatsOf lines)).
    { apply JsFacts.entries_In, (JsFacts.sort_In byCountDesc).
      rewrite Es. now left. }
    now apply fontStatsOf_entry in Hin. }
  subst c.
  set (p := fun e : Z * Z => snd e =? bucketTotal lines top).
  assert (Hp : forall a b, p a = true -> p b = true -> byCountDesc a b = false).
  { intros a b Ha Hb. unfold p in Ha, Hb. apply Z.eqb_eq in Ha, Hb.
    unfold byCountDesc. apply Z.ltb_ge. lia. }
  assert (Hfirst := @sort_head_first (Z * Z) byCountDesc p
                      (Js.entries (fontStatsOf lines))
                      (top, bucketTotal lines top) rest
                      byCountDesc_asym byCountDesc_trans Hp Es
                      (Z.eqb_refl _)).
  unfold Js.entries in Hfirst. rewrite filter_app in Hfirst.
  set (indexed := Js.sort (fun a b : Z * Z => fst b <? fst a)
                    (filter (fun e => Js.isArrayIndex (fst e))
                            (fontStatsOf lines))) in Hfirst.
  assert (Hin : In (h, bucketTotal lines h) (filter p indexed)).
  { apply filter_In. split.
    - apply JsFacts.sort_In, filter_In. split; [|exact Hidx].
      now apply fontStatsOf_entry.
    - unfold p. cbn. now apply Z.eqb_eq. }
  destruct (filter p indexed) as [|e tail] eqn:Ef; [destruct Hin|].
  cbn [app] in Hfirst. injection Hfirst as -> _.
  assert (Htop : In (top, bucketTotal lines top) (filter p indexed))
    by (rewrite Ef; now left).
  apply filter_In in Htop as [Htop _].
  apply JsFacts.sort_In, filter_In in Htop as [_ Htop]. cbn in Htop.
  split; [exact Htop|].
  destruct Hin as [Heq|Hin]; [injection Heq as <- _; lia|].
  assert (Hs : StronglySorted
                 (Js.before (fun a b : Z * Z => fst b <? fst a))
                 (filter p indexed)).
  { apply StronglySorted_filter_keep, JsFacts.sort_sorted.
    - intros a b. rewrite Z.ltb_lt, Z.ltb_ge. lia.
    - intros a b c0. unfold Js.before. rewrite !Z.ltb_ge. lia. }
  rewrite Ef in Hs. inversion Hs as [|? ? _ Hall]; subst.
  rewrite Forall_forall in Hall. specialize (Hall _ Hin).
  unfold Js.before in Hall. cbn in Hall. now apply Z.ltb_ge in Hall.
Qed.

Lemma largest_bucket_tie_witness :
  Js.isArrayIndex 12 = true /\ 12 <= 18.
Proof.
  apply (@largest_bucket_tie
           [ lineOf 40 18 760; lineOf 40 12 700 ] 12 [18] 18 eq_refl).
  - exists (lineOf 40 18 760). split; [now left | split; reflexivity].
  - reflexivity.
  - reflexivity.
Defined.

Lemma getHeadingLevel_absent sizes h :
  ~ In (Js.Math_round h) sizes -> getHeadingLevel sizes h = None.
Proof.
  intros H. apply indexOf_absent in H. unfold getHeadingLevel. now rewrite H.
Qed.

Lemma classifyHeadings_nil lines titleText :
  classifyHeadings lines titleText [] = [].
Proof.
  unfold classifyHeadings.
  replace (candidates titleText [] lines) with (@nil Heading); [reflexivity|].
  induction lines as [|line lines IH]; [reflexivity|].
  cbn [candidates]. unfold classifyLine.
  rewrite getHeadingLevel_absent by (intros []). exact IH.
Qed.

Lemma bodySize_cases lines :
  match sortedFontsOf lines with
  | [] => bodySize (getFontStatistics lines) = 12
  | top :: _ =>
      hasBucket lines top /\
      bodySize (getFontStatistics lines) = (if top =? 0 then 12 else top)
  end.
Proof.
  destruct (sortedFontsOf_spec lines) as [_ [Hin _]].
  cbn [getFontStatistics bodySize].
  destruct (sortedFontsOf lines) as [|top others]; [reflexivity|].
  split; [apply Hin; now left | reflexivity].
Qed.

(** X5: when all the lines that count for the profile have one and the
    same rounded height, there is no heading size, and so no heading,
    whatever the title. *)
Theorem single_size_no_heading :
  forall (lines : list Line) (size : Z),
    (forall line, In line lines -> qualifies line = true ->
                  roundedHeight line = size) ->
    headingSizes (getFontStatistics lines) = [] /\
    forall titleText,
      classifyHeadings lines titleText (headingSizes (getFontStatistics lines))
      = [].
Proof.
  intros lines size Hsame.
  assert (Hbucket : forall h, hasBucket lines h -> h = size).
  { intros h [line [H1 [H2 <-]]]. auto. }
  assert (Hnil : headingSizes (getFontStatistics lines) = []).
  { destruct (headingSizes_spec lines) as [Hhs _].
    destruct (headingSizes (getFontStatistics lines)) as [|h hs]; [reflexivity|].
    exfalso. destruct (proj1 (Hhs h) (or_introl eq_refl)) as [Hb Hlt].
    apply Hbucket in Hb. subst h.
    assert (Hc := bodySize_cases lines).
    destruct (sortedFontsOf_spec lines) as [_ [Hin _]].
    destruct (sortedFontsOf lines) as [|top others].
    - destruct (proj1 (Hhs size) (or_introl eq_refl)) as [Hb _].
      apply Hin in Hb. destruct Hb.
    - destruct Hc as [Hb Hc]. apply Hbucket in Hb. subst top.
      rewrite Hc in Hlt. destruct (size =? 0) eqn:E; [|lia].
      apply Z.eqb_eq in E. lia. }
  split; [exact Hnil|].
  intros titleText. rewrite Hnil. apply classifyHeadings_nil.
Qed.

Lemma single_size_no_heading_witness :
  headingSizes (getFontStatistics [lineOf 40 12 700; lineOf 2 30 760]) = [] /\
  forall titleText,
    classifyHeadings [lineOf 40 12 700; lineOf 2 30 760] titleText
      (headingSizes (getFontStatistics [lineOf 40 12 700; lineOf 2 30 760]))
    = [].
Proof.
  apply (@single_size_no_heading [lineOf 40 12 700; lineOf 2 30 760] 12).
  intros line [<-|[<-|[]]] Hq; [reflexivity | discriminate].
Defined.

(** X6: a line whose rounded height is not above the body size is never
    a heading, and every heading of the outline comes from a line of the
    document whose rounded height is above the body size and is the
    height of a bucket. *)
Theorem body_text_never_heading :
  forall (lines : list Line) (titleText : string),
    let stats := getFontStatistics lines in
    (forall line, roundedHeight line <= bodySize stats ->
       classifyLine titleText (headingSizes stats) line = None) /\
    (forall heading,
       In heading (classifyHeadings lines titleText (headingSizes stats)) ->
       exists line,
         In line lines /\ h_text heading = text line /\
         h_page heading = page line /\
         bodySize stats < roundedHeight line /\
         hasBucket lines (roundedHeight line)).
Proof.
  intros lines titleText stats.
  destruct (headingSizes_spec lines) as [Hhs _]. fold stats in Hhs.
  split.
  - intros line Hle. apply classifyLine_None. left.
    apply getHeadingLevel_absent. intros Hin.
    apply Hhs in Hin as [_ Hlt]. unfold roundedHeight in Hle. lia.
  - intros heading Hin.
    apply classifyHeadings_In in Hin as [line [Hl Hc]].
    exists line. split; [exact Hl|].
    destruct (classifyLine_Some _ _ _ Hc) as [Ht [Hp [Hlvl _]]].
    split; [exact Ht|]. split; [exact Hp|].
    destruct (in_dec Z.eq_dec (roundedHeight line) (headingSizes stats))
      as [Hin|Hout].
    + apply Hhs in Hin. tauto.
    + apply getHeadingLevel_absent in Hout. congruence.
Qed.

Lemma nth_error_sorted {A : Type} (R : A -> A -> Prop) l :
  StronglySorted R l ->
  forall i j a b, (i < j)%nat ->
    nth_error l i = Some a -> nth_error l j = Some b -> R a b.
Proof.
  induction 1 as [|c l Hs IH Hc]; intros i j a b Hij Ha Hb.
  - destruct i; discriminate.
  - destruct j as [|j]; [lia|]. cbn in Hb. destruct i as [|i].
    + injection Ha as <-. rewrite Forall_forall in Hc.
      apply Hc. eapply nth_error_In; eauto.
    + cbn in Ha. apply (IH i j); [lia | assumption | assumption].
Qed.

Lemma levelDepth_rank (rank : nat) :
  levelDepth (match rank with
              | 0 => "H1" | 1 => "H2" | 2 => "H3" | 3 => "H4" | 4 => "H5"
              | _ => "H6"
              end)%nat = Nat.min (rank + 1) 6.
Proof.
  do 6 (destruct rank as [|rank]; [reflexivity|]).
  cbn [levelDepth]. replace (Nat.min (S (S (S (S (S (S rank))))) + 1) 6)
    with 6%nat by lia. reflexivity.
Qed.

(** X7: in an outline, a larger font never gets a deeper level: of two
    lines classified against the heading sizes of a document, the one
    with the greater rounded height has a level that is not deeper, and
    is strictly higher unless the other is at H6. *)
Theorem larger_font_higher_level :
  forall (lines : list Line) (titleText : string) (a b : Line)
         (ha hb : Heading),
    classifyLine titleText (headingSizes (getFontStatistics lines)) a = Some ha ->
    classifyLine titleText (headingSizes (getFontStatistics lines)) b = Some hb ->
    roundedHeight b < roundedHeight a ->
    (1 <= levelDepth (level ha) <= levelDepth (level hb))%nat /\
    (levelDepth (level hb) <= 6)%nat /\
    (level hb <> "H6" -> (levelDepth (level ha) < levelDepth (level hb))%nat).
Proof.
  intros lines titleText a b ha hb Ha Hb Hlt.
  destruct (headingSizes_spec lines) as [_ Hsorted].
  set (sizes := headingSizes (getFontStatistics lines)) in *.
  destruct (classifyLine_Some _ _ _ Ha) as [_ [_ [La _]]].
  destruct (classifyLine_Some _ _ _ Hb) as [_ [_ [Lb _]]].
  assert (Hina : In (roundedHeight a) sizes).
  { destruct (in_dec Z.eq_dec (roundedHeight a) sizes) as [H|H]; [exact H|].
    apply getHeadingLevel_absent in H. congruence. }
  assert (Hinb : In (roundedHeight b) sizes).
  { destruct (in_dec Z.eq_dec (roundedHeight b) sizes) as [H|H]; [exact H|].
    apply getHeadingLevel_absent in H. congruence. }
  destruct (In_isRank _ _ Hina) as [i Hi].
  destruct (In_isRank _ _ Hinb) as [j Hj].
  assert (Hij : (i < j)%nat).
  { destruct Hi as [Hi _], Hj as [Hj _].
    destruct (Nat.lt_trichotomy i j) as [H|[H|H]]; [exact H| |].
    - subst j. rewrite Hi in Hj. injection Hj as Hj. lia.
    - assert (H' := nth_error_sorted Hsorted H Hj Hi). cbv beta in H'. lia. }
  rewrite (getHeadingLevel_rank _ Hi) in La.
  rewrite (getHeadingLevel_rank _ Hj) in Lb.
  injection La as La. injection Lb as Lb.
  assert (Da := levelDepth_rank i). assert (Db := levelDepth_rank j).
  rewrite La in Da. rewrite Lb in Db.
  split; [lia|]. split; [lia|].
  intros H6. destruct (Nat.le_gt_cases 5 j) as [H5|H5]; [|lia].
  exfalso. apply H6. rewrite <- Lb.
  do 5 (destruct j as [|j]; [lia|]). destruct j; reflexivity.
Qed.

Lemma larger_font_higher_level_witness :
  (1 <= levelDepth "H1" <= levelDepth "H2")%nat /\
  (levelDepth "H2" <= 6)%nat /\
  ("H2" <> "H6" -> (levelDepth "H1" < levelDepth "H2")%nat).
Proof.
  pose (lines := [ lineOf 30 22 760; lineOf 40 18 740; lineOf 250 12 700 ]).
  apply (@larger_font_higher_level lines "Annual Report"
           (lineOf 30 22 760) (lineOf 40 18 740)
           {| h_text := filler 30; level := "H1"; h_page := 1 |}
           {| h_text := filler 40; level := "H2"; h_page := 1 |}).
  - vm_compute. reflexivity.
  - vm_compute. reflexivity.
  - vm_compute. reflexivity.
Defined.

(* ================================================================== *)
(** * Further properties of the outline and of the extraction *)
(* ================================================================== *)

Lemma dropRepeated_fixed rest :
  forall kept,
    NoDup (map entryKey rest) ->
    (forall h, In h rest -> ~ In (entryKey h) (map entryKey kept)) ->
    dropRepeated kept rest = rest.
Proof.
  induction rest as [|a rest IH]; intros kept Hnd Hnew; [reflexivity|].
  cbn [dropRepeated]. inversion Hnd as [|? ? Hnotin Hnd']; subst.
  rewrite (proj2 (seen_false a kept)) by (apply Hnew; now left).
  f_equal. apply IH; [exact Hnd'|].
  intros h Hh. rewrite map_app, in_app_iff. cbn [map In].
  intros [H|[H|[]]].
  - apply (Hnew h); [now right | exact H].
  - apply Hnotin. rewrite H. now apply in_map.
Qed.

Lemma subsequence_length {A : Type} (l1 l2 : list A) :
  subsequence l1 l2 -> (List.length l1 <= List.length l2)%nat.
Proof. induction 1; cbn; lia. Qed.

(** X8: removing duplicates twice is removing them once; a list without
    two headings of the same text and page is left as it is; the result
    is never longer than the list. *)
Theorem removeDuplicates_idempotent :
  forall outline : list Heading,
    removeDuplicates (removeDuplicates outline) = removeDuplicates outline /\
    (NoDup (map entryKey outline) -> removeDuplicates outline = outline) /\
    (List.length (removeDuplicates outline) <= List.length outline)%nat.
Proof.
  intros outline. rewrite !removeDuplicates_spec. split; [|split].
  - apply dropRepeated_fixed; [apply dropRepeated_NoDup | intros h _ []].
  - intros Hnd. apply dropRepeated_fixed; [exact Hnd | intros h _ []].
  - apply subsequence_length, dropRepeated_subsequence.
Qed.

Lemma filter_all {A : Type} (p : A -> bool) l :
  Forall (fun a => p a = true) l -> filter p l = l.
Proof.
  induction 1 as [|a l Ha Hl IH]; cbn [filter]; [reflexivity|].
  now rewrite Ha, IH.
Qed.

Lemma filter_none {A : Type} (p : A -> bool) l :
  Forall (fun a => p a = false) l -> filter p l = [].
Proof.
  induction 1 as [|a l Ha Hl IH]; cbn [filter]; [reflexivity|].
  now rewrite Ha.
Qed.

(** The loop over the pages, page by page: the lines it adds carry the
    numbers of the pages, and those of a page are the lines of that
    page. *)
Lemma collectLines_pages pages :
  forall i allLines,
  exists more,
    collectLines i pages allLines = Ok (allLines ++ more) /\
    Forall (fun line => i <= page line < i + Z.of_nat (List.length pages)) more /\
    forall n items,
      nth_error pages n = Some items ->
      getLinesFromPage (i + Z.of_nat n) items =
      Ok (filter (fun line => page line =? i + Z.of_nat n) more).
Proof.
  induction pages as [|items pages IH]; intros i allLines.
  - exists []. cbn [collectLines]. rewrite app_nil_r.
    split; [reflexivity|]. split; [constructor|].
    intros [|n] its H; discriminate.
  - destruct (getLinesFromPage_lines i items) as [pageLines [Hp [_ [Hpg _]]]].
    destruct (IH (i + 1) (allLines ++ pageLines)) as [more [Hm [Hrange Hloc]]].
    exists (pageLines ++ more). cbn [collectLines]. rewrite Hp. cbn [bind].
    rewrite Hm, app_assoc. split; [reflexivity|].
    rewrite Forall_forall in Hpg, Hrange. split.
    + apply Forall_forall. intros line Hin. cbn [List.length].
      apply in_app_iff in Hin as [H|H].
      * rewrite (Hpg line H). lia.
      * specialize (Hrange line H). lia.
    + intros n its Hn. rewrite filter_app. destruct n as [|n].
      * injection Hn as <-. cbn [Z.of_nat]. rewrite Z.add_0_r, Hp.
        rewrite (@filter_all _ _ pageLines), (@filter_none _ _ more), app_nil_r;
          [reflexivity | |].
        -- apply Forall_forall. intros line H. specialize (Hrange line H).
           apply Z.eqb_neq. lia.
        -- apply Forall_forall. intros line H. rewrite (Hpg line H).
           apply Z.eqb_refl.
      * cbn [nth_error] in Hn.
        replace (i + Z.of_nat (S n)) with (i + 1 + Z.of_nat n) by lia.
        rewrite (Hloc n its Hn), (@filter_none _ _ pageLines); [reflexivity|].
        apply Forall_forall. intros line H. rewrite (Hpg line H).
        apply Z.eqb_neq. lia.
Qed.

Lemma candidates_pages titleText sizes lines :
  StronglySorted inDocumentOrder lines ->
  StronglySorted (fun a b => h_page a <= h_page b)
                 (candidates titleText sizes lines).
Proof.
  induction 1 as [|line lines Hs IH Hl]; cbn [candidates]; [constructor|].
  destruct (classifyLine titleText sizes line) as [h|] eqn:E; [|exact IH].
  constructor; [exact IH|].
  apply Forall_forall. intros c Hc.
  apply candidates_In in Hc as [l [Hin Hcl]].
  rewrite Forall_forall in Hl. specialize (Hl l Hin).
  destruct (classifyLine_Some _ _ _ E) as [_ [-> _]].
  destruct (classifyLine_Some _ _ _ Hcl) as [_ [-> _]].
  unfold inDocumentOrder in Hl. lia.
Qed.

Lemma subsequence_In {A : Type} (l1 l2 : list A) a :
  subsequence l1 l2 -> In a l1 -> In a l2.
Proof.
  induction 1 as [| b l1 l2 H IH | b l1 l2 H IH]; cbn [In]; [tauto | auto |].
  intros [->|Ha]; auto.
Qed.

Lemma subsequence_sorted {A : Type} (R : A -> A -> Prop) l1 l2 :
  subsequence l1 l2 -> StronglySorted R l2 -> StronglySorted R l1.
Proof.
  induction 1 as [| b l1 l2 H IH | b l1 l2 H IH]; intros Hs;
    [constructor | |]; inversion Hs as [|? ? Hs' Hall]; subst.
  - now apply IH.
  - constructor; [now apply IH|].
    rewrite Forall_forall in *. intros c Hc. apply Hall.
    eapply subsequence_In; eauto.
Qed.

(** X9: the headings of an extracted outline are in page order (their
    page numbers never decrease), and every page number is that of a
    page of the document, from 1 to the number of pages. *)
Theorem outline_pages_ascending :
  forall (pdf : Pdf) (result : Outline),
    extractOutlineFromPdf pdf = Ok result ->
    StronglySorted (fun a b => h_page a <= h_page b) (outline result) /\
    forall heading, In heading (outline result) ->
      1 <= h_page heading <= Z.of_nat (List.length pdf).
Proof.
  intros pdf result Hr.
  destruct (extractOutlineFromPdf_spec pdf) as [allLines [Hc [Hs [_ Hx]]]].
  destruct (collectLines_pages pdf 1 []) as [more [Hc' [Hrange _]]].
  cbn [app] in Hc'. rewrite Hc in Hc'. injection Hc' as <-.
  rewrite Hx in Hr. destruct allLines as [|l ls]; [discriminate|].
  injection Hr as <-. cbn [outline]. split.
  - unfold classifyHeadings. rewrite removeDuplicates_spec.
    eapply subsequence_sorted; [apply dropRepeated_subsequence|].
    now apply candidates_pages.
  - intros heading Hin.
    apply classifyHeadings_In in Hin as [line [Hl Hcl]].
    destruct (classifyLine_Some _ _ _ Hcl) as [_ [-> _]].
    rewrite Forall_forall in Hrange. specialize (Hrange line Hl). lia.
Qed.

Lemma outline_pages_ascending_witness :
  let headings := [ {| h_text := "Overview"; level := "H2"; h_page := 2 |};
                    {| h_text := "Overview"; level := "H2"; h_page := 3 |} ] in
  StronglySorted (fun a b => h_page a <= h_page b) headings /\
  forall heading, In heading headings -> 1 <= h_page heading <= 3.
Proof.
  apply (@outline_pages_ascending samplePdf
           {| title := "Annual Report";
              outline := [ {| h_text := "Overview"; level := "H2"; h_page := 2 |};
                           {| h_text := "Overview"; level := "H2"; h_page := 3 |} ] |}).
  vm_compute. reflexivity.
Defined.

Lemma pages_empty_or_not (pdf : Pdf) :
  Forall (fun items => items = []) pdf <-> ~ Exists hasFragment pdf.
Proof.
  induction pdf as [|items pdf IH].
  - split; [intros _ H; inversion H | constructor].
  - split.
    + intros H He. inversion H as [|? ? H1 H2]; subst.
      inversion He as [? ? Hf|? ? He']; subst;
        [now apply Hf | now apply IH in H2].
    + intros Hn. constructor.
      * destruct items as [|item items]; [reflexivity|].
        exfalso. apply Hn. left. discriminate.
      * apply IH. intros He. apply Hn. now right.
Qed.

(** X10: the extraction lets an exception of the parser through as it
    is.  Once the parser has delivered the pages, the extraction returns
    an outline exactly when some page has a fragment, and the only
    exception it throws then is the empty-extraction error, with every
    page empty: reading [group[0]] in the Line Assembler never fails. *)
Theorem extraction_succeeds_iff :
  forall file : Home.File,
    (forall e, Home.file_document file = Throw e ->
       Home.extractOutlineFromFile file = Throw e) /\
    (forall pdf, Home.file_document file = Ok pdf ->
       ((exists result, Home.extractOutlineFromFile file = Ok result) <->
        Exists hasFragment pdf) /\
       (forall e, Home.extractOutlineFromFile file = Throw e ->
          e = EmptyExtraction /\ Forall (fun items => items = []) pdf)).
Proof.
  intros file. unfold Home.extractOutlineFromFile. split.
  - intros e He. now rewrite He.
  - intros pdf Hpdf. rewrite Hpdf. cbn [bind].
    destruct (extractOutlineFromPdf_spec pdf) as [allLines [_ [_ [He Hx]]]].
    rewrite Hx. destruct allLines as [|l ls].
    + assert (Hempty : Forall (fun items => items = []) pdf) by now apply He.
      split; [split|].
      * intros [r Hr]. discriminate.
      * intros Hex. now apply pages_empty_or_not in Hempty.
      * intros e [= <-]. auto.
    + split; [split|].
      * intros _.
        destruct (Exists_dec hasFragment pdf) as [H|H]; [| exact H |].
        -- intros [|i its]; [right; intros H; now apply H | left; discriminate].
        -- apply pages_empty_or_not, He in H. discriminate.
      * intros _. eauto.
      * intros e H. discriminate.
Qed.

(** X11: the lines are collected page by page: every line carries the
    number of a page of the document, and the collected lines that carry
    the number of a page are exactly the lines the Line Assembler makes
    of that page's fragments, whatever the other pages hold. *)
Theorem lines_are_page_local :
  forall (pdf : Pdf) (allLines : list Line),
    collectLines 1 pdf [] = Ok allLines ->
    (forall line, In line allLines ->
       1 <= page line <= Z.of_nat (List.length pdf)) /\
    (forall n items,
       nth_error pdf n = Some items ->
       getLinesFromPage (Z.of_nat n + 1) items =
       Ok (filter (fun line => page line =? Z.of_nat n + 1) allLines)).
Proof.
  intros pdf allLines Hc.
  destruct (collectLines_pages pdf 1 []) as [more [Hc' [Hrange Hloc]]].
  cbn [app] in Hc'. rewrite Hc in Hc'. injection Hc' as <-. split.
  - intros line Hin. rewrite Forall_forall in Hrange.
    specialize (Hrange line Hin). lia.
  - intros n items Hn. rewrite (Z.add_comm (Z.of_nat n) 1). now apply Hloc.
Qed.

Lemma lines_are_page_local_witness :
  getLinesFromPage 3 [ sampleItem "Overview" 72 760 18;
                       sampleItem "Costs fell in most regions during the year."
                                  72 700 12 ] =
  Ok [ {| text := "Overview"; x := 72; y := 760; height := 18;
          fontName := "g_d0_f1"; page := 3 |};
       {| text := "Costs fell in most regions during the year.";
          x := 72; y := 700; height := 12;
          fontName := "g_d0_f1"; page := 3 |} ].
Proof.
  assert (H : exists allLines, collectLines 1 samplePdf [] = Ok allLines)
    by (eexists; reflexivity).
  destruct H as [allLines H].
  assert (E : Ok allLines = collectLines 1 samplePdf []) by (now rewrite H).
  vm_compute in E. injection E as E.
  etransitivity;
    [exact (proj2 (@lines_are_page_local samplePdf allLines H) 2%nat _ eq_refl)|].
  subst allLines. reflexivity.
Defined.

Lemma collectLines_app first rest :
  forall i allLines,
    collectLines i (first ++ rest) allLines =
    bind (collectLines i first allLines)
         (fun lines => collectLines (i + Z.of_nat (List.length first)) rest lines).
Proof.
  induction first as [|items first IH]; intros i allLines.
  - cbn. now rewrite Z.add_0_r.
  - cbn [app collectLines]. destruct (getLinesFromPage i items) as [pl|e];
      [|reflexivity].
    cbn [bind]. rewrite IH.
    replace (i + 1 + Z.of_nat (List.length first))
      with (i + Z.of_nat (List.length (items :: first)))
      by (cbn [List.length]; lia).
    reflexivity.
Qed.

Lemma titleOf_firstPages lines1 lines2 :
  firstPages lines1 = firstPages lines2 -> titleOf lines1 = titleOf lines2.
Proof. intros H. now rewrite !titleOf_spec, H. Qed.

(** X12: the title of a document is decided by its first two pages: it
    is the title of the document cut after page 2, and the empty string
    when these two pages have no fragment. *)
Theorem title_from_first_two_pages :
  forall (page1 page2 : list TextItem) (later : Pdf) (result : Outline),
    extractOutlineFromPdf (page1 :: page2 :: later) = Ok result ->
    title result =
    match extractOutlineFromPdf [page1; page2] with
    | Ok cut => title cut
    | Throw _ => ""
    end.
Proof.
  intros page1 page2 later result Hr.
  destruct (collectLines_pages [page1; page2] 1 []) as [l12 [H12 [R12 _]]].
  destruct (collectLines_pages later 3 l12) as [more [H3 [R3 _]]].
  cbn [app] in H12.
  assert (Hall : collectLines 1 (page1 :: page2 :: later) [] = Ok (l12 ++ more)).
  { change (page1 :: page2 :: later) with ([page1; page2] ++ later).
    rewrite collectLines_app, H12. cbn [bind List.length Z.of_nat]. exact H3. }
  assert (Hfp : firstPages (l12 ++ more) = firstPages l12).
  { unfold firstPages. rewrite filter_app, (@filter_none _ _ more), app_nil_r;
      [reflexivity|].
    eapply Forall_impl; [|exact R3]. cbv beta. intros line Hl.
    apply Z.leb_gt. lia. }
  unfold extractOutlineFromPdf in Hr |- *. rewrite Hall in Hr. rewrite H12.
  cbn [bind] in Hr |- *.
  assert (Ht : title result = titleOf (l12 ++ more)).
  { destruct (l12 ++ more); [discriminate|]. injection Hr as <-. reflexivity. }
  rewrite Ht, (titleOf_firstPages _ _ Hfp).
  destruct l12 as [|l ls]; reflexivity.
Qed.

Lemma title_from_first_two_pages_witness :
  "Annual Report" =
  match extractOutlineFromPdf [nth 0 samplePdf []; nth 1 samplePdf []] with
  | Ok cut => title cut
  | Throw _ => ""
  end.
Proof.
  apply (@title_from_first_two_pages
           (nth 0 samplePdf []) (nth 1 samplePdf []) [nth 2 samplePdf []]
           {| title := "Annual Report";
              outline := [ {| h_text := "Overview"; level := "H2"; h_page := 2 |};
                           {| h_text := "Overview"; level := "H2"; h_page := 3 |} ] |}).
  vm_compute. reflexivity.
Defined.

(* ================================================================== *)
(** * The component state *)
(* ================================================================== *)

Lemma errorMessage_nonempty e : errorMessage e <> "".
Proof.
  unfold errorMessage. destruct (message e); discriminate.
Qed.

Lemma handleFileValidation_settled selected s :
  settled s -> settled (fst (Home.handleFileValidation selected s)).
Proof.
  intros [Hf [Hl [Ho He]]]. unfold Home.handleFileValidation.
  destruct selected as [f|]; [|split; [|split; [|split]]; assumption].
  destruct (String.eqb (Home.file_type f) "application/pdf") eqn:E;
    cbn; (split; [|split; [|split]]); cbn.
  - apply String.eqb_eq in E. intros f' [= <-]. exact E.
  - exact Hl.
  - discriminate.
  - discriminate.
  - discriminate.
  - exact Hl.
  - exact Ho.
  - intros m [= <-]. discriminate.
Qed.

Lemma handleExtract_settled s : settled s -> settled (Home.handleExtract s).
Proof.
  intros [Hf [Hl [Ho He]]]. unfold Home.handleExtract.
  destruct (Home.st_file s) as [f|] eqn:Ef.
  - specialize (Hf f eq_refl).
    assert (Hkeep : forall f', Some f = Some f' ->
                      Home.file_type f' = "application/pdf")
      by (intros f' [= <-]; exact Hf).
    unfold Home.extractOutlineFromFile.
    destruct (Home.file_document f) as [pdf|e] eqn:Ed; cbn [bind].
    + destruct (extractOutlineFromPdf pdf) as [r|e] eqn:Ex; cbn [bind].
      * assert (Hfrom : exists f0 pdf0,
                   Home.file_type f0 = "application/pdf" /\
                   Home.file_document f0 = Ok pdf0 /\
                   extractOutlineFromPdf pdf0 = Ok r)
          by (exists f, pdf; auto).
        destruct (title r) as [|c t] eqn:Et.
        -- destruct (outline r) as [|h hs] eqn:Eo;
             cbn; (split; [|split; [|split]]); cbn; rewrite ?Ef;
             try exact Hkeep; try reflexivity; try discriminate.
           ++ intros m [= <-]. discriminate.
           ++ intros r' [= <-]. split; [|exact Hfrom].
              right. rewrite Eo. discriminate.
        -- cbn; (split; [|split; [|split]]); cbn;
             try reflexivity; try discriminate.
           intros r' [= <-]. split; [|exact Hfrom].
           left. rewrite Et. discriminate.
      * cbn; (split; [|split; [|split]]); cbn; rewrite ?Ef;
          try exact Hkeep; try reflexivity; try discriminate.
        intros m [= <-]. apply errorMessage_nonempty.
    + cbn; (split; [|split; [|split]]); cbn; rewrite ?Ef;
        try exact Hkeep; try reflexivity; try discriminate.
      intros m [= <-]. apply errorMessage_nonempty.
  - (split; [|split; [|split]]); cbn; rewrite ?Ef;
      try assumption; try discriminate.
    intros m [= <-]. discriminate.
Qed.

Lemma setDragActive_settled v s : settled s -> settled (Home.setDragActive v s).
Proof. intros H. exact H. Qed.

Lemma handle_settled s e : settled s -> settled (Home.handle s e).
Proof.
  intros H. destruct e as [type|files|files|]; cbn [Home.handle].
  - unfold Home.handleDrag.
    destruct (_ || _); [exact H|]. destruct (String.eqb _ _); exact H.
  - unfold Home.handleDrop. destruct (Home.firstFile files).
    + apply handleFileValidation_settled, setDragActive_settled, H.
    + exact H.
  - unfold Home.handleFileChange. destruct (Home.firstFile files).
    + now apply handleFileValidation_settled.
    + exact H.
  - now apply handleExtract_settled.
Qed.

Lemma run_settled events : settled (Home.run events).
Proof.
  unfold Home.run.
  assert (H : settled Home.initial)
    by (split; [|split; [|split]]; cbn; try reflexivity; discriminate).
  revert H. generalize Home.initial.
  induction events as [|e events IH]; intros s H; [exact H|].
  cbn [fold_left]. apply IH. now apply handle_settled.
Qed.

(** X13: whatever the user does, the selected file, when there is one,
    has the type application/pdf: no file of another type is ever kept
    for extraction. *)
Theorem only_pdf_selected :
  forall (events : list Home.event) (f : Home.File),
    Home.st_file (Home.run events) = Some f ->
    Home.file_type f = "application/pdf".
Proof.
  intros events f H. now apply (run_settled events).
Qed.

Lemma only_pdf_selected_witness :
  Home.file_type reportFile = "application/pdf".
Proof.
  apply (@only_pdf_selected
           [ Home.Drag "dragenter"; Home.Drop (Some [notesFile]);
             Home.FileChange (Some [reportFile; notesFile]) ]).
  reflexivity.
Defined.

(** X14: whatever the user does, an outline on display has a title or a
    heading, and it is the outline extracted from the document of a PDF
    file. *)
Theorem displayed_outline_has_structure :
  forall (events : list Home.event) (shown : Outline),
    Home.st_outline (Home.run events) = Some shown ->
    (title shown <> "" \/ outline shown <> []) /\
    exists f pdf,
      Home.file_type f = "application/pdf" /\
      Home.file_document f = Ok pdf /\
      extractOutlineFromPdf pdf = Ok shown.
Proof.
  intros events shown H. now apply (run_settled events).
Qed.

Lemma displayed_outline_has_structure_witness :
  let shown :=
    {| title := "Annual Report";
       outline := [ {| h_text := "Overview"; level := "H2"; h_page := 2 |};
                    {| h_text := "Overview"; level := "H2"; h_page := 3 |} ] |} in
  (title shown <> "" \/ outline shown <> []) /\
  exists f pdf,
    Home.file_type f = "application/pdf" /\
    Home.file_document f = Ok pdf /\
    extractOutlineFromPdf pdf = Ok shown.
Proof.
  apply (@displayed_outline_has_structure
           [ Home.FileChange (Some [reportFile]); Home.Extract;
             Home.Drop (Some [notesFile]) ]).
  vm_compute. reflexivity.
Defined.

(** X15: whatever the user does, once a handler has run to its end the
    loading flag is down, an error message on display is not empty, and
    the extract button is disabled exactly when no file is selected. *)
Theorem settled_state :
  forall events : list Home.event,
    Home.st_isLoading (Home.run events) = false /\
    (forall m, Home.st_error (Home.run events) = Some m -> m <> "") /\
    (Home.extractDisabled (Home.run events) = true <->
     Home.st_file (Home.run events) = None).
Proof.
  intros events. destruct (run_settled events) as [_ [Hl [_ He]]].
  split; [exact Hl|]. split; [exact He|].
  unfold Home.extractDisabled. rewrite Hl. cbn [orb].
  destruct (Home.st_file (Home.run events)); split; congruence.
Qed.

(** X16: an extraction started with a file selected ends not loading and
    in one of two states: the outline of the file is on display, no
    error is, and the selection is cleared; or an error message is on
    display, no outline is, and the file stays selected. *)
Theorem handleExtract_outcome :
  forall (s : Home.state) (f : Home.File),
    Home.st_file s = Some f ->
    Home.st_isLoading (Home.handleExtract s) = false /\
    Home.st_dragActive (Home.handleExtract s) = Home.st_dragActive s /\
    ((exists result,
         Home.extractOutlineFromFile f = Ok result /\
         (title result <> "" \/ outline result <> []) /\
         Home.st_outline (Home.handleExtract s) = Some result /\
         Home.st_error (Home.handleExtract s) = None /\
         Home.st_file (Home.handleExtract s) = None) \/
     (exists m,
         m <> "" /\
         Home.st_outline (Home.handleExtract s) = None /\
         Home.st_error (Home.handleExtract s) = Some m /\
         Home.st_file (Home.handleExtract s) = Some f)).
Proof.
  intros s f Hf. unfold Home.handleExtract. rewrite Hf.
  destruct (Home.extractOutlineFromFile f) as [r|e]; cbn [bind].
  - destruct (title r) as [|c t] eqn:Et.
    + destruct (outline r) as [|h hs] eqn:Eo; cbn.
      * split; [reflexivity|]. split; [reflexivity|]. right.
        eexists. split; [|split; [reflexivity|split; [reflexivity|exact Hf]]].
        discriminate.
      * split; [reflexivity|]. split; [reflexivity|]. left.
        exists r. split; [reflexivity|]. rewrite Eo.
        split; [right; discriminate|]. auto.
    + cbn. split; [reflexivity|]. split; [reflexivity|]. left.
      exists r. split; [reflexivity|]. rewrite Et.
      split; [left; discriminate|]. auto.
  - cbn. split; [reflexivity|]. split; [reflexivity|]. right.
    exists (errorMessage e). split; [apply errorMessage_nonempty|]. auto.
Qed.

Lemma handleExtract_outcome_witness :
  Home.st_isLoading (Home.handleExtract (Home.setFile (Some scanFile) Home.initial))
  = false.
Proof.
  apply (@handleExtract_outcome (Home.setFile (Some scanFile) Home.initial)
           scanFile eq_refl).
Defined.

(** The three ways [handleExtract] ends. *)
Lemma handleExtract_cases s :
  match Home.st_file s with
  | None =>
      Home.handleExtract s =
      Home.setError (Some "Please select a file first.") s
  | Some f =>
      match
        (result <- Home.extractOutlineFromFile f ;;
         match title result, outline result with
         | EmptyString, [] => Throw NoStructureFound
         | _, _ => Ok result
         end)
      with
      | Ok result =>
          Home.handleExtract s =
          {| Home.st_file := None; Home.st_outline := Some result;
             Home.st_isLoading := false; Home.st_error := None;
             Home.st_isCopied := Home.st_isCopied s;
             Home.st_dragActive := Home.st_dragActive s |}
      | Throw e =>
          Home.handleExtract s =
          {| Home.st_file := Some f; Home.st_outline := None;
             Home.st_isLoading := false;
             Home.st_error := Some (errorMessage e);
             Home.st_isCopied := Home.st_isCopied s;
             Home.st_dragActive := Home.st_dragActive s |}
      end
  end.
Proof.
  unfold Home.handleExtract.
  destruct (Home.st_file s) as [f|] eqn:Ef; [|reflexivity].
  destruct (bind _ _) as [r|e];
    unfold Home.setIsLoading, Home.setOutline, Home.setError, Home.setFile;
    cbn; rewrite ?Ef; reflexivity.
Qed.

(** X17: pressing extract again: after an extraction that ended with an
    error message (no file, or a failure) a second one ends in the very
    same state; after one that succeeded, the file is no longer
    selected, and the second one only adds the message asking for a
    file, the outline staying on display. *)
Theorem handleExtract_twice :
  forall s : Home.state,
    (Home.st_error (Home.handleExtract s) <> None ->
     Home.handleExtract (Home.handleExtract s) = Home.handleExtract s) /\
    (Home.st_error (Home.handleExtract s) = None ->
     Home.handleExtract (Home.handleExtract s) =
     Home.setError (Some "Please select a file first.") (Home.handleExtract s) /\
     Home.st_outline (Home.handleExtract (Home.handleExtract s)) =
     Home.st_outline (Home.handleExtract s) /\
     Home.st_outline (Home.handleExtract s) <> None).
Proof.
  intros s. assert (H1 := handleExtract_cases s).
  destruct (Home.st_file s) as [f|] eqn:Ef.
  - destruct (bind _ _) as [r|e] eqn:Ex.
    + rewrite H1. cbn. split; [intros H; now contradiction H|]. intros _.
      split; [reflexivity|]. split; [reflexivity | discriminate].
    + rewrite H1. cbn. split; [intros _|discriminate].
      set (s1 := {| Home.st_file := Some f; Home.st_outline := None;
                    Home.st_isLoading := false;
                    Home.st_error := Some (errorMessage e);
                    Home.st_isCopied := Home.st_isCopied s;
                    Home.st_dragActive := Home.st_dragActive s |}).
      assert (H2 := handleExtract_cases s1). cbn [s1 Home.st_file] in H2.
      rewrite Ex in H2. exact H2.
  - rewrite H1. cbn. split; [intros _|discriminate].
    set (s1 := Home.setError (Some "Please select a file first.") s).
    assert (H2 := handleExtract_cases s1).
    cbn [s1 Home.st_file Home.setError] in H2. rewrite Ef in H2. exact H2.
Qed.

(* ================================================================== *)
(** * Independence of the order of arrival *)
(* ================================================================== *)

(** Two sorted lists with the same elements are equal when elements
    that compare equal are equal. *)
Lemma sorted_perm_eq {A : Type} (R : A -> A -> Prop) l1 :
  forall l2,
    StronglySorted R l1 -> StronglySorted R l2 -> Permutation l1 l2 ->
    (forall a b, In a l1 -> In b l1 -> R a b -> R b a -> a = b) ->
    l1 = l2.
Proof.
  induction l1 as [|a t1 IH]; intros l2 H1 H2 Hp Hanti.
  - apply Permutation_nil in Hp. now subst.
  - destruct l2 as [|b t2];
      [apply Permutation_sym, Permutation_nil in Hp; discriminate|].
    inversion H1 as [|? ? H1' Ha]; subst.
    inversion H2 as [|? ? H2' Hb]; subst.
    rewrite Forall_forall in Ha, Hb.
    assert (Eab : a = b).
    { assert (Hin_a : In a (b :: t2))
        by (apply (Permutation_in _ Hp); now left).
      assert (Hin_b : In b (a :: t1))
        by (apply (Permutation_in _ (Permutation_sym Hp)); now left).
      destruct Hin_a as [->|Hat2]; [reflexivity|].
      destruct Hin_b as [->|Hbt1]; [reflexivity|].
      apply Hanti; [now left | now right | now apply Ha | now apply Hb]. }
    subst b. f_equal. apply IH; try assumption.
    + now apply Permutation_cons_inv in Hp.
    + intros c d Hc Hd. apply Hanti; now right.
Qed.

Lemma filter_Permutation {A : Type} (p : A -> bool) l1 l2 :
  Permutation l1 l2 -> Permutation (filter p l1) (filter p l2).
Proof.
  induction 1 as [| a l1 l2 H IH | a b l | l1 l2 l3 H12 IH12 H23 IH23];
    cbn [filter].
  - constructor.
  - destruct (p a); [now constructor | exact IH].
  - destruct (p a), (p b); try reflexivity. apply perm_swap.
  - now transitivity (filter p l2).
Qed.

Lemma NoDup_map_injective {A B : Type} (f : A -> B) l a b :
  NoDup (map f l) -> In a l -> In b l -> f a = f b -> a = b.
Proof.
  induction l as [|c l IH]; cbn [map In]; [tauto|].
  intros Hnd Ha Hb Hf. inversion Hnd as [|? ? Hnotin Hnd']; subst.
  destruct Ha as [->|Ha], Hb as [->|Hb]; auto.
  - exfalso. apply Hnotin. rewrite Hf. now apply in_map.
  - exfalso. apply Hnotin. rewrite <- Hf. now apply in_map.
Qed.

Lemma sort_byX_order items items' :
  Permutation items items' ->
  (forall a b, In a items -> In b items ->
     (transform_4 a == transform_4 b)%Q -> a = b) ->
  Js.sort byX items = Js.sort byX items'.
Proof.
  intros Hp Hx.
  apply (sorted_perm_eq (R := Js.before byX)).
  - apply JsFacts.sort_sorted; [apply byX_asym | apply byX_trans].
  - apply JsFacts.sort_sorted; [apply byX_asym | apply byX_trans].
  - etransitivity; [apply JsFacts.sort_perm|].
    etransitivity; [exact Hp | apply Permutation_sym, JsFacts.sort_perm].
  - intros a b Ha Hb Hab Hba. apply JsFacts.sort_In in Ha, Hb.
    apply Hx; [assumption | assumption |].
    unfold Js.before, byX in Hab, Hba.
    apply JsFacts.Qltb_false in Hab, Hba. now apply Qle_antisym.
Qed.

Lemma lineOfGroup_order pageNumber k group group' :
  Js.sort byX group = Js.sort byX group' ->
  lineOfGroup pageNumber (k, group) = lineOfGroup pageNumber (k, group').
Proof. intros H. unfold lineOfGroup. now rewrite H. Qed.

Lemma unsorted_lines_incl pageNumber items items' unsorted unsorted' :
  Permutation items items' ->
  (forall a b, In a items -> In b items -> lineKey a = lineKey b ->
     (transform_4 a == transform_4 b)%Q -> a = b) ->
  Forall2 (fun entry line => lineOfGroup pageNumber entry = Ok line)
          (Js.entries (groupItems items)) unsorted ->
  Forall2 (fun entry line => lineOfGroup pageNumber entry = Ok line)
          (Js.entries (groupItems items')) unsorted' ->
  forall line, In line unsorted -> In line unsorted'.
Proof.
  intros Hp Hx HF HF' line Hin.
  destruct (Forall2_In_r _ HF Hin) as [[k g] [He Hl]].
  apply groupItems_entry in He as [-> Hne].
  assert (Hpk : Permutation (itemsAt k items) (itemsAt k items'))
    by (apply filter_Permutation, Hp).
  assert (Hne' : itemsAt k items' <> []).
  { intros H0. rewrite H0 in Hpk.
    apply Permutation_sym, Permutation_nil in Hpk. contradiction. }
  assert (He' : In (k, itemsAt k items') (Js.entries (groupItems items')))
    by (apply groupItems_entry; auto).
  destruct (Forall2_In_l _ HF' He') as [line' [Hin' Hl']].
  rewrite (@lineOfGroup_order pageNumber k _ (itemsAt k items')) in Hl.
  - rewrite Hl in Hl'. injection Hl' as ->. exact Hin'.
  - apply sort_byX_order; [exact Hpk|].
    intros a b Ha Hb. unfold itemsAt in Ha, Hb.
    apply filter_In in Ha as [Ha Ka], Hb as [Hb Kb].
    apply Z.eqb_eq in Ka, Kb. apply Hx; congruence.
Qed.

(** X18: the lines of a page do not depend on the order in which its
    fragments arrive, as long as no two different fragments of one line
    have the same horizontal origin. *)
Theorem fragment_order_irrelevant :
  forall (pageNumber : Z) (items items' : list TextItem),
    Permutation items items' ->
    (forall a b, In a items -> In b items -> lineKey a = lineKey b ->
       (transform_4 a == transform_4 b)%Q -> a = b) ->
    getLinesFromPage pageNumber items = getLinesFromPage pageNumber items'.
Proof.
  intros pageNumber items items' Hp Hx.
  destruct (getLinesFromPage_ok pageNumber items) as [U [HU HF]].
  destruct (getLinesFromPage_ok pageNumber items') as [U' [HU' HF']].
  rewrite HU, HU'. f_equal.
  assert (Hx' : forall a b, In a items' -> In b items' ->
                  lineKey a = lineKey b ->
                  (transform_4 a == transform_4 b)%Q -> a = b).
  { intros a b Ha Hb. apply Hx; apply (Permutation_in _ (Permutation_sym Hp));
      assumption. }
  assert (Hkeys : NoDup (map (fun line => Qfloor (y line)) U)).
  { rewrite (@lineOfGroup_keys _ _ _ HF).
    apply JsFacts.entries_keys_NoDup, groupItems_spec. }
  assert (Hkeys' : NoDup (map (fun line => Qfloor (y line)) U')).
  { rewrite (@lineOfGroup_keys _ _ _ HF').
    apply JsFacts.entries_keys_NoDup, groupItems_spec. }
  assert (HUU : Permutation U U').
  { apply NoDup_Permutation;
      [eapply NoDup_map_inv; exact Hkeys | eapply NoDup_map_inv; exact Hkeys'|].
    intros line. split.
    - eapply unsorted_lines_incl; eauto.
    - eapply unsorted_lines_incl; [apply Permutation_sym, Hp | | |]; eauto. }
  apply (sorted_perm_eq (R := Js.before byYDesc)).
  - apply JsFacts.sort_sorted; [apply byYDesc_asym | apply byYDesc_trans].
  - apply JsFacts.sort_sorted; [apply byYDesc_asym | apply byYDesc_trans].
  - etransitivity; [apply JsFacts.sort_perm|].
    etransitivity; [exact HUU | apply Permutation_sym, JsFacts.sort_perm].
  - intros a b Ha Hb Hab Hba. apply JsFacts.sort_In in Ha, Hb.
    apply (NoDup_map_injective _ _ _ _ Hkeys Ha Hb).
    apply Qfloor_comp. unfold Js.before, byYDesc in Hab, Hba.
    apply JsFacts.Qltb_false in Hab, Hba. now apply Qle_antisym.
Qed.

Lemma fragment_order_irrelevant_witness :
  getLinesFromPage 1 helloWorld = getLinesFromPage 1 (rev helloWorld).
Proof.
  apply (@fragment_order_irrelevant 1 helloWorld (rev helloWorld)).
  - apply Permutation_rev.
  - intros a b [<-|[<-|[]]] [<-|[<-|[]]] _ H; try reflexivity;
      vm_compute in H; discriminate.
Defined.

Lemma bucketTotal_Permutation lines lines' h :
  Permutation lines lines' -> bucketTotal lines h = bucketTotal lines' h.
Proof.
  induction 1 as [| a l1 l2 H IH | a b l | l1 l2 l3 H12 IH12 H23 IH23];
    cbn [bucketTotal]; lia.
Qed.

Lemma hasBucket_Permutation lines lines' h :
  Permutation lines lines' -> hasBucket lines h -> hasBucket lines' h.
Proof.
  intros Hp [line [H1 H2]]. exists line. split; [|exact H2].
  now apply (Permutation_in _ Hp).
Qed.

Lemma fontStatsOf_indexed lines :
  (forall line, In line lines -> qualifies line = true ->
     Js.isArrayIndex (roundedHeight line) = true) ->
  Js.entries (fontStatsOf lines) =
  Js.sort (fun a b : Z * Z => fst b <? fst a) (fontStatsOf lines).
Proof.
  intros Hidx. unfold Js.entries.
  assert (Hall : Forall (fun e : Z * Z => Js.isArrayIndex (fst e) = true)
                        (fontStatsOf lines)).
  { apply Forall_forall. intros [h c] Hin.
    apply fontStatsOf_entry in Hin as [[line [H1 [H2 <-]]] _].
    cbn [fst]. now apply Hidx. }
  rewrite (filter_all _ Hall), filter_none, app_nil_r; [reflexivity|].
  eapply Forall_impl; [|exact Hall]. cbv beta. intros e He. now rewrite He.
Qed.

(** X19: the font statistics do not depend on the order of the lines,
    as long as the rounded heights that count lie between 0 and
    2^32 - 2. *)
Theorem line_order_irrelevant :
  forall lines lines' : list Line,
    Permutation lines lines' ->
    (forall line, In line lines -> qualifies line = true ->
       Js.isArrayIndex (roundedHeight line) = true) ->
    getFontStatistics lines = getFontStatistics lines'.
Proof.
  intros lines lines' Hp Hidx.
  assert (Hidx' : forall line, In line lines' -> qualifies line = true ->
                    Js.isArrayIndex (roundedHeight line) = true).
  { intros line Hin. apply Hidx, (Permutation_in _ (Permutation_sym Hp)), Hin. }
  assert (He : Js.entries (fontStatsOf lines) = Js.entries (fontStatsOf lines')).
  { rewrite !fontStatsOf_indexed by assumption.
    assert (Hnd : NoDup (map fst (fontStatsOf lines))) by apply fontStatsOf_spec.
    assert (Hnd' : NoDup (map fst (fontStatsOf lines'))) by apply fontStatsOf_spec.
    assert (Hsame : Permutation (fontStatsOf lines) (fontStatsOf lines')).
    { apply NoDup_Permutation;
        [eapply NoDup_map_inv; exact Hnd | eapply NoDup_map_inv; exact Hnd'|].
      intros [h c]. rewrite !fontStatsOf_entry.
      rewrite (bucketTotal_Permutation h Hp). split; intros [Hb Hc]; split;
        try exact Hc.
      - now apply (hasBucket_Permutation Hp).
      - now apply (hasBucket_Permutation (Permutation_sym Hp)). }
    apply (sorted_perm_eq
             (R := Js.before (fun a b : Z * Z => fst b <? fst a))).
    - apply JsFacts.sort_sorted.
      + intros a b. rewrite Z.ltb_lt, Z.ltb_ge. lia.
      + intros a b c. unfold Js.before. rewrite !Z.ltb_ge. lia.
    - apply JsFacts.sort_sorted.
      + intros a b. rewrite Z.ltb_lt, Z.ltb_ge. lia.
      + intros a b c. unfold Js.before. rewrite !Z.ltb_ge. lia.
    - etransitivity; [apply JsFacts.sort_perm|].
      etransitivity; [exact Hsame | apply Permutation_sym, JsFacts.sort_perm].
    - intros a b Ha Hb Hab Hba. apply JsFacts.sort_In in Ha, Hb.
      apply (NoDup_map_injective _ _ _ _ Hnd Ha Hb).
      unfold Js.before in Hab, Hba. apply Z.ltb_ge in Hab, Hba. lia. }
  unfold getFontStatistics, sortedFontsOf. now rewrite He.
Qed.

Lemma line_order_irrelevant_witness :
  getFontStatistics bodyAndHeading = getFontStatistics (rev bodyAndHeading).
Proof.
  apply (@line_order_irrelevant bodyAndHeading (rev bodyAndHeading)).
  - apply Permutation_rev.
  - intros line [<-|[<-|[<-|[]]]] _; reflexivity.
Defined.

(** X20: the level H1 goes to the largest font of the document, and to
    it alone: a line that is classified has the level H1 exactly when no
    bucket has a height above its rounded height. *)
Theorem h1_is_largest_font :
  forall (lines : list Line) (titleText : string) (line : Line)
         (heading : Heading),
    classifyLine titleText (headingSizes (getFontStatistics lines)) line
      = Some heading ->
    (level heading = "H1" <->
     forall h, hasBucket lines h -> h <= roundedHeight line).
Proof.
  intros lines titleText line heading Hc.
  destruct (headingSizes_spec lines) as [Hhs Hsorted].
  set (sizes := headingSizes (getFontStatistics lines)) in *.
  destruct (classifyLine_Some _ _ _ Hc) as [_ [_ [Hl _]]].
  assert (Hin : In (roundedHeight line) sizes).
  { destruct (in_dec Z.eq_dec (roundedHeight line) sizes) as [H|H]; [exact H|].
    apply getHeadingLevel_absent in H. congruence. }
  destruct (In_isRank _ _ Hin) as [i Hi].
  rewrite (getHeadingLevel_rank _ Hi) in Hl. injection Hl as Hl.
  destruct Hi as [Hi _].
  assert (Hbody : bodySize (getFontStatistics lines) < roundedHeight line)
    by (now apply Hhs in Hin).
  split.
  - intros H1 h Hb.
    assert (i = 0%nat).
    { rewrite H1 in Hl. destruct i as [|i]; [reflexivity|]. exfalso.
      do 5 (destruct i as [|i]; [discriminate|]). discriminate. }
    subst i.
    destruct (Z_lt_le_dec (bodySize (getFontStatistics lines)) h) as [Hgt|Hle];
      [|lia].
    assert (Hh : In h sizes) by (apply Hhs; auto).
    apply In_nth_error in Hh as [j Hj]. destruct j as [|j].
    + rewrite Hi in Hj. injection Hj as <-. lia.
    + assert (H' := nth_error_sorted Hsorted (Nat.lt_0_succ j) Hi Hj).
      cbv beta in H'. lia.
  - intros Hmax. destruct i as [|i]; [now rewrite <- Hl|]. exfalso.
    destruct (nth_error sizes 0) as [top|] eqn:E0.
    + assert (H' := nth_error_sorted Hsorted (Nat.lt_0_succ i) E0 Hi).
      cbv beta in H'.
      assert (Hb : hasBucket lines top)
        by (apply Hhs; eapply nth_error_In; eauto).
      specialize (Hmax top Hb). lia.
    + destruct sizes; [destruct Hin | discriminate].
Qed.

Lemma h1_is_largest_font_witness :
  "H1" = "H1" <->
  forall h, hasBucket bodyAndHeading h -> h <= roundedHeight (lineOf 40 18 760).
Proof.
  apply (@h1_is_largest_font bodyAndHeading "Annual Report" (lineOf 40 18 760)
           {| h_text := filler 40; level := "H1"; h_page := 1 |}).
  vm_compute. reflexivity.
Defined.

(* ================================================================== *)
(** * The rounded difference against binary64 arithmetic *)
(* ================================================================== *)

(** On the doubles of [Doubles.boundary], [Js.abs_diff_lt_1] at the
    rationals they denote is what binary64 arithmetic computes for
    [Math.abs(h - m) < 1]. *)
Lemma abs_diff_lt_1_on_doubles :
  forallb
    (fun p =>
       Bool.eqb
         (Doubles.abs_diff_lt_1 (fst p) (snd p))
         (Js.abs_diff_lt_1 (Doubles.exactValue (fst p))
                           (Js.Finite (Doubles.exactValue (snd p)))))
    Doubles.boundary = true.
Proof. vm_compute. reflexivity. Qed.
